(** * HomeKit pairing badge: setup-code decoder and SVG renderer

    A shallow embedding of the algorithmic core of [src/Main.c]:
    [base36ToLong], [codeFromSetupPayload], [qrcodeSVGPath] and
    [SVGBadgeFromSetupPayload], together with the properties the
    specification states about them.

    Conventions of the embedding.
    - A [const char*] is the [string] of the bytes found from the pointer
      on; the byte after the last one of the [string] reads as NUL, so every
      [string] denotes a NUL-terminated C string and [strlen] stops at the
      first NUL byte.
    - [uint64_t] and [int] values are integers of [Z]; the only place where
      the source can leave the range of its types is the conversion of a
      [double] to [uint64_t] in [base36ToLong], which is undefined behaviour
      in C and is [None] here.
    - [double] arithmetic is IEEE-754 binary64 with round-to-nearest-even,
      restricted to the integral values the decoder computes with.
    - [float] arithmetic and the [%.3f] conversion of [qrcodeSVGPath] are
      operations of a [FloatOps] interface; an instance for binary32 built on
      the Standard Library's [SpecFloat] is given in [Module Binary32].
    - [mg_printf] appends its formatted text to the bytes queued on the
      connection, and [LOG] appends a line to the console. *)

From Stdlib Require Import ZArith List Sorted Bool Ascii String Lia.
From Stdlib Require Import Floats.SpecFloat.
Import ListNotations.

Local Open Scope string_scope.
Local Open Scope Z_scope.

(** ** C strings and character buffers *)

Module CString.

Definition NUL : ascii := Ascii.zero.

(** [*p] *)
Definition deref (p : string) : ascii :=
  match p with
  | EmptyString => NUL
  | String c _ => c
  end.

(** [p + n] *)
Fixpoint ptr_add (p : string) (n : nat) {struct n} : string :=
  match n, p with
  | O, _ => p
  | S _, EmptyString => EmptyString
  | S k, String _ t => ptr_add t k
  end.

(** [p[i]] *)
Definition char_at (p : string) (i : nat) : ascii := deref (ptr_add p i).

Fixpoint strlen (p : string) : nat :=
  match p with
  | EmptyString => O
  | String c t => if Ascii.eqb c NUL then O else S (strlen t)
  end.

(** The value of a byte as [unsigned char]. *)
Definition uchar (c : ascii) : Z := Z.of_N (N_of_ascii c).

(** [strncmp]: the bytes are compared as [unsigned char], the comparison
    stops after [n] bytes, at the first difference or at a NUL. *)
Fixpoint strncmp (s1 s2 : string) (n : nat) {struct n} : Z :=
  match n with
  | O => 0
  | S k =>
      let c1 := deref s1 in
      let c2 := deref s2 in
      if negb (Ascii.eqb c1 c2) then uchar c1 - uchar c2
      else if Ascii.eqb c1 NUL then 0
      else strncmp (ptr_add s1 1) (ptr_add s2 1) k
  end.

(** [char buf[n] = { 0 }] *)
Fixpoint zeros (n : nat) : string :=
  match n with
  | O => EmptyString
  | S k => String NUL (zeros k)
  end.

(** [buf[i] = c], for [i] inside the buffer. *)
Fixpoint store (buf : string) (i : nat) (c : ascii) : string :=
  match buf, i with
  | EmptyString, _ => EmptyString
  | String _ t, O => String c t
  | String b t, S k => String b (store t k c)
  end.

(** Stores the bytes of [bytes] at [buf[i]], [buf[i+1]], ... *)
Fixpoint store_bytes (buf : string) (i : nat) (bytes : string) : string :=
  match bytes with
  | EmptyString => buf
  | String c t => store_bytes (store buf i c) (S i) t
  end.

(** The [n] bytes [strncpy] writes: the characters of [src] up to its NUL
    or up to [n] of them, then NUL bytes. *)
Fixpoint strncpy_bytes (src : string) (n : nat) {struct n} : string :=
  match n with
  | O => EmptyString
  | S k =>
      if Ascii.eqb (deref src) NUL then zeros (S k)
      else String (deref src) (strncpy_bytes (ptr_add src 1) k)
  end.

Definition strncpy (dst src : string) (n : nat) : string :=
  store_bytes dst 0 (strncpy_bytes src n).

(** The characters a [%s] conversion prints. *)
Definition c_str (p : string) : string := substring 0 (strlen p) p.

End CString.
Import CString.

(** ** IEEE-754 binary64 on integral values

    Every [double] that [base36ToLong] computes is an integer, an infinity
    or a NaN. A finite one is represented by its integer value; the
    infinities and NaN are merged into [NonFinite], because the only thing
    the decoder does with a [double] is to add to it, to multiply it and to
    convert it to [uint64_t], and all three keep a non-finite value
    non-finite or undefined. *)

Module Double.

Inductive double : Type :=
| Finite (z : Z)
| NonFinite.

(** The integer nearest to [x] that has at most 53 significant bits, ties
    going to the even significand. *)
Definition round_nearest_even (x : Z) : Z :=
  let a := Z.abs x in
  if a <? 2 ^ 53 then x
  else
    let e := Z.log2 a - 52 in
    let m := Z.shiftr a e in
    let r := a - Z.shiftl m e in
    let half := 2 ^ (e - 1) in
    let m' := if (half <? r) || ((r =? half) && Z.odd m) then m + 1 else m in
    Z.sgn x * Z.shiftl m' e.

(** Rounding of an integral real to binary64; overflow gives an infinity. *)
Definition of_Z (x : Z) : double :=
  let r := round_nearest_even x in
  if Z.abs r <? 2 ^ 1024 then Finite r else NonFinite.

Definition add (a b : double) : double :=
  match a, b with
  | Finite x, Finite y => of_Z (x + y)
  | _, _ => NonFinite
  end.

Definition mul (a b : double) : double :=
  match a, b with
  | Finite x, Finite y => of_Z (x * y)
  | _, _ => NonFinite
  end.

(** [pow(x, y)] for a non-negative integral exponent. The C library's
    [pow] is taken to return the correctly rounded power, which is the
    exact power whenever that is representable ([36 ^ i] is, up to
    [i = 16]). *)
Definition pow (x : Z) (y : nat) : double := of_Z (x ^ Z.of_nat y).

(** Conversion to [uint64_t]: defined only for values of [[0, 2^64)]. *)
Definition to_uint64 (d : double) : option Z :=
  match d with
  | Finite z => if (0 <=? z) && (z <? 2 ^ 64) then Some z else None
  | NonFinite => None
  end.

End Double.

(** The same step of [base36ToLong] on the Standard Library's executable
    specification of binary64, to check [Double] against. *)

Definition binary64 (x : Z) : spec_float := binary_normalize 53 1024 x 0 false.

(** The integer a binary64 value converts to, when it is one of
    [[0, 2^64)]: the fraction is discarded. *)
Definition binary64_to_uint64 (f : spec_float) : option Z :=
  match f with
  | S754_zero _ => Some 0
  | S754_finite false m e =>
      let z := if 0 <=? e then Z.pos m * 2 ^ e else Z.pos m / 2 ^ (- e) in
      if z <? 2 ^ 64 then Some z else None
  | S754_finite true m e =>
      if (e <? 0) && (Z.pos m <? 2 ^ (- e)) then Some 0 else None
  | _ => None
  end.

Definition accumulate_binary64 (result value : Z) (i : nat) : option Z :=
  binary64_to_uint64
    (SFadd 53 1024 (binary64 result)
       (SFmul 53 1024 (binary64 value) (binary64 (36 ^ Z.of_nat i)))).

(** ** The setup-code decoder *)

Section Decoder.

(** Whether plain [char] is a signed type on the target. *)
Variable char_is_signed : bool.

(** The value of a [char] after promotion to [int]. *)
Definition char_value (c : ascii) : Z :=
  if (128 <=? uchar c) && char_is_signed then uchar c - 256 else uchar c.

(** The branch on [*character > 0x39] of [base36ToLong]. *)
Definition digit_value (character : ascii) : Z :=
  if char_value character >? 57 (* 0x39 *)
  then char_value character - 65 (* 'A' *) + 10
  else char_value character - 48 (* '0' *).

(** [result += value * pow(36, i)]: the sum is computed in [double] and
    converted back to [uint64_t]. *)
Definition accumulate (result value : Z) (i : nat) : option Z :=
  Double.to_uint64
    (Double.add (Double.of_Z result)
                (Double.mul (Double.of_Z value) (Double.pow 36 i))).

(** [while (len--) { ... i++ ... }] *)
Fixpoint base36ToLong_loop (base36String : string) (len i : nat) (result : Z)
  : option Z :=
  match len with
  | O => Some result
  | S len' =>
      let character := char_at base36String len' in
      let value := digit_value character in
      match accumulate result value i with
      | Some result' => base36ToLong_loop base36String len' (S i) result'
      | None => None
      end
  end.

Definition base36ToLong (base36String : string) : option Z :=
  base36ToLong_loop base36String (strlen base36String) 0 0.

(** [for (int i = 0; i < 9; i++) setupCode[i] = *payload++;] with [count]
    iterations left. *)
Fixpoint copy_loop (count : nat) (payload setupCode : string) (i : nat) : string :=
  match count with
  | O => setupCode
  | S k => copy_loop k (ptr_add payload 1) (store setupCode i (deref payload)) (S i)
  end.

Definition is_setup_payload (setupPayload : string) : bool :=
  (strlen setupPayload =? 20)%nat && (strncmp setupPayload "X-HM://" 7 =? 0).

Definition setupCode_buffer (setupPayload : string) : string :=
  copy_loop 9 (ptr_add setupPayload 7) (zeros 10) 0.

Definition codeFromSetupPayload (setupPayload : string) : option Z :=
  if is_setup_payload setupPayload then
    match base36ToLong (setupCode_buffer setupPayload) with
    | Some decoded => Some (Z.land decoded 134217727 (* 0x7ffffff *))
    | None => None
    end
  else Some 0.

End Decoder.

(** ** Output: the connection, decimal and string formatting *)

(** The bytes queued for sending on a connection, oldest first. *)
Definition mg_connection : Type := string.

(** [mg_printf(connection, ...)] with the text its format expands to. *)
Definition mg_printf (connection : mg_connection) (text : string) : mg_connection :=
  connection ++ text.

(** The lines written to the device console, oldest first. *)
Definition console : Type := list string.

(** [LOG(LL_ERROR, (...))] with the text its format expands to. *)
Definition LOG (log : console) (line : string) : console := (log ++ [line])%list.

(** The line of the over-range branch: [__func__] and the message. *)
Definition over_range_message : string :=
  "SVGBadgeFromSetupPayload: Code exceeds the limits of a valid setup code.".

(** A C string literal of the source, written with a backquote wherever the
    source has an escaped double quote. *)
Fixpoint lit (s : string) : string :=
  match s with
  | EmptyString => EmptyString
  | String c t =>
      String (if Ascii.eqb c (ascii_of_nat 96) then ascii_of_nat 34 else c) (lit t)
  end.

Definition digit_char (d : Z) : ascii := ascii_of_N (Z.to_N (48 + d)).

(** The decimal digits of [n], least significant first onto [acc]; an
    [unsigned long long] has at most 20 of them. *)
Fixpoint format_llu_loop (fuel : nat) (n : Z) (acc : string) : string :=
  match fuel with
  | O => acc
  | S fuel' =>
      let acc' := String (digit_char (n mod 10)) acc in
      if n / 10 =? 0 then acc' else format_llu_loop fuel' (n / 10) acc'
  end.

(** The text of a [%llu] conversion: no width, no padding. *)
Definition format_llu (n : Z) : string := format_llu_loop 20 n EmptyString.

(** [snprintf(buf, size, ...)]: at most [size - 1] characters of the
    formatted text, then a NUL. *)
Definition snprintf (buf : string) (size : nat) (text : string) : string :=
  match size with
  | O => buf
  | S k => store_bytes buf 0 (substring 0 k text ++ String NUL EmptyString)
  end.

(** [for (i = start; i < start + count; i++) body], on the state [st]. *)
Fixpoint for_loop {St : Type} (count i : nat) (body : nat -> St -> St) (st : St) : St :=
  match count with
  | O => st
  | S k => for_loop k (S i) body (body i st)
  end.

(** ** The static parts of the badge *)

Definition svg_xml_declaration : string :=
  lit ("<?xml version=`1.0` encoding=`utf-8`?>").

Definition svg_root_open : string :=
  lit ("<svg version=`1.1` id=`homekit-badge` xmlns=`http://www.w3.org/2000/svg` "
       ++ "xmlns:xlink=`http://www.w3.org/1999/xlink` x=`0px` y=`0px` viewBox=`0 0 180 250` "
       ++ "style=`enable-background:new 0 0 180 250;` xml:space=`preserve`>").

Definition svg_style : string :=
  lit ("<style "
       ++ "type=`text/"
       ++ "css`>.st0{fill:#FFFFFF;stroke:#221E1F;stroke-width:5;}.st1{fill:#221E1F;stroke:#221E1F}.st2{fill:#"
       ++ "FFFFFF;}</style>").

Definition svg_background : string :=
  lit ("<g><rect x=`2.5` y=`2.5` width=`180` height=`245` rx=`20` ry=`20` class=`st0` />").

Definition svg_logo_path_1 : string :=
  lit ("<g><path id=`_Compound_Path_1_1_` class=`st1` "
       ++ "d=`M69.5,31l-6.6-5.3v-9.4c0-0.7-0.3-0.9-0.8-0.9h-4.2c-0.6,0-0.9,0.1-0.9,0.9v4.8l0,0L41,8.5c-0.4-0.4-"
       ++ "0.9-0.6-1.4-0.6c-0.5,0-1,0.2-1.4,0.6L9.7,31c-1,0.8-0.7,1.9,0.4,1.9h5.3v28.6c0,1.9,0.7,2.6,2.5,2.6h43."
       ++ "4c1.8,0,2.5-0.7,2.5-2.6V32.9h5.3C70.2,32.9,70.5,31.8,69.5,31z "
       ++ "M60.3,58.1c0.2,1.1-0.6,2.1-1.6,2.2c-0.1,0-0.3,0-0.4,0H20.9c-1.1,0.1-2-0.7-2.1-1.8c0-0.1,0-0.3,0-0."
       ++ "4V30.4c0-1.3,0.5-2.5,1.5-3.3l18-14c0.3-0.3,0.8-0.5,1.3-0.5c0.5,0,0.9,0.2,1.3,0.5l18,14c1,0.8,1.5,2,1."
       ++ "5,3.3V58.1z`/>").

Definition svg_logo_path_2 : string :=
  lit ("<path id=`_Compound_Path_2_1_` class=`st1` "
       ++ "d=`M53.1,30.4l-12.6-10c-0.3-0.2-0.6-0.4-1-0.4c-0.4,0-0.7,0.1-1,0.4L26,30.4c-0.7,0.5-1.1,1.4-1,2.3v19."
       ++ "9c-0.1,0.8,0.5,1.5,1.3,1.6c0.1,0,0.2,0,0.3,0h26c0.8,0.1,1.5-0.5,1.6-1.3c0-0.1,0-0.2,0-0.3V32.8C54.3,"
       ++ "31.9,53.9,31,53.1,30.4z "
       ++ "M50.6,49.2c0.1,0.6-0.3,1.2-1,1.3c-0.1,0-0.2,0-0.3,0H29.8c-0.6,0.1-1.2-0.4-1.3-1.1c0-0.1,0-0.2,0-0."
       ++ "3V34.1c-0.1-0.7,0.2-1.4,0.7-1.8l9.5-7.5c0.2-0.2,0.5-0.3,0.8-0.3c0.3,0,0.6,0.1,0.8,0.3c0.3,0.2,9,7.1,9."
       ++ "4,7.5c0.6,0.4,0.8,1.1,0.7,1.8V49.2z`/>").

Definition svg_logo_path_3 : string :=
  lit ("<path id=`_Compound_Path_3_1_` class=`st1` "
       ++ "d=`M40.1,31.3c-0.2-0.1-0.3-0.2-0.5-0.2c-0.2,0-0.4,0.1-0.5,0.2c-0.2,0.1-4.8,3.6-5,3.8c-0.4,0.3-0.6,0."
       ++ "8-0.6,1.2v8.5c0,0.7,0.4,0.8,0.8,0.8h10.5c0.5,0,0.8-0.2,0.8-0.8v-8.5c0-0.5-0.2-0.9-0.6-1.2C44.9,34.9,"
       ++ "40.3,31.4,40.1,31.3z "
       ++ "M42.1,41.7c0,0.3-0.1,0.4-0.3,0.4h-4.3c-0.2,0-0.3-0.1-0.3-0.4v-4c0-0.2,0.1-0.4,0.2-0.5l2-1.6c0.1-0.1,0."
       ++ "1-0.1,0.2-0.1c0.1,0,0.2,0,0.2,0.1l2,1.6c0.2,0.1,0.2,0.3,0.2,0.5L42.1,41.7z`/></g>").

Definition svg_qr_backdrop : string :=
  lit ("<rect x=`10` y=`74` class=`st2` width=`165` height=`165`/>").

Definition svg_close : string :=
  lit ("</g></svg>").

Definition svg_code_text_open : string :=
  lit ("<text x=`75.5` y=`29.5` font-family=`SF Mono, Menlo, monospace` font-weight=`bold` "
       ++ "letter-spacing=`8` font-size=`28` class=`st1`><tspan x=`75.5` y=`29.5`>").

Definition svg_code_text_between : string :=
  lit ("</tspan><tspan "
       ++ "x=`75.5` y=`52`>").

Definition svg_code_text_close : string :=
  lit ("</tspan></text>").

(** ** Single-precision arithmetic and the QR code

    [qrcodeSVGPath] computes in [float] and prints with [%.3f]. Its
    operations are the fields of [FloatOps]; every expression of the source
    is evaluated operation by operation, in the order C gives it. *)

Class FloatOps (float : Type) : Type := {
  float_of_int : Z -> float;             (* conversion of an [int] *)
  fadd : float -> float -> float;
  fmul : float -> float -> float;
  fdiv : float -> float -> float;
  printf_3f : float -> string            (* the text of a [%.3f] conversion *)
}.

(** Modelled from the spec: the [QRCode] structure of [qrcode.h] and
    [qrcode_getModule], declared outside this repository. The renderer
    "only reads [size] and per-cell boolean state from it": [size] is the
    side length (a [uint8_t], so at most 255) and [qrcode_getModule q x y]
    tells whether the module at column [x], row [y] is on. *)
Record QRCode : Type := {
  size : nat;
  qrcode_getModule : nat -> nat -> bool
}.

Section Renderer.

Context {float : Type} `{FloatOps float}.

(** The [mg_printf] of one module: [M%.3f,%.3fh%.3fv%.3fh-%.3fz]. *)
Definition module_path (px py scale : float) : string :=
  "M" ++ printf_3f px ++ "," ++ printf_3f py
      ++ "h" ++ printf_3f scale ++ "v" ++ printf_3f scale
      ++ "h-" ++ printf_3f scale ++ "z".

(** The body of the inner loop of [qrcodeSVGPath]. *)
Definition module_step (qrcode : QRCode) (offsetX offsetY scale : float)
           (y x : nat) (connection : mg_connection) : mg_connection :=
  if qrcode_getModule qrcode x y then
    mg_printf connection
      (module_path (fadd offsetX (fmul scale (float_of_int (Z.of_nat x))))
                   (fadd offsetY (fmul scale (float_of_int (Z.of_nat y))))
                   scale)
  else connection.

Definition qrcodeSVGPath (connection : mg_connection) (qrcode : QRCode)
           (x_offset y_offset width : float) : mg_connection :=
  let connection := mg_printf connection (lit "<path d=`") in
  let border := 1 in
  let offsetX := x_offset in
  let offsetY := y_offset in
  let scale := fdiv width (float_of_int (Z.of_nat (size qrcode) + 2 * border)) in
  let offsetX := fadd offsetX (fmul (float_of_int border) scale) in
  let offsetY := fadd offsetY (fmul (float_of_int border) scale) in
  let connection :=
    for_loop (size qrcode) 0
      (fun y => for_loop (size qrcode) 0 (module_step qrcode offsetX offsetY scale y))
      connection in
  mg_printf connection (lit "`/>").

Variable char_is_signed : bool.

(** [qrcode_initText(&qrcode, qrcodeData, version, ecc, data)] of the
    external QR library, as the matrix it leaves in [qrcode]. *)
Variable qrcode_initText : Z -> Z -> string -> QRCode.

(** The text element carrying the two halves of the code. *)
Definition code_text (code : Z) : string :=
  let codeString := snprintf (zeros 9) 9 (format_llu code) in
  let codeFirstHalf := strncpy (zeros 5) codeString 4 in
  let codeSecondHalf := strncpy (zeros 5) (ptr_add codeString 4) 4 in
  svg_code_text_open ++ c_str codeFirstHalf
    ++ svg_code_text_between ++ c_str codeSecondHalf ++ svg_code_text_close.

(** The result is the connection and the console after the call; [None]
    when the call runs into the undefined conversion of [base36ToLong]. *)
Definition SVGBadgeFromSetupPayload (setupPayload : string)
           (connection : mg_connection) (log : console)
  : option (mg_connection * console) :=
  if is_setup_payload setupPayload then
    match codeFromSetupPayload char_is_signed setupPayload with
    | None => None
    | Some code =>
        if code >? 99999999 then Some (connection, LOG log over_range_message)
        else
          let connection := mg_printf connection svg_xml_declaration in
          let connection := mg_printf connection svg_root_open in
          let connection := mg_printf connection svg_style in
          let connection := mg_printf connection svg_background in
          let connection := mg_printf connection svg_logo_path_1 in
          let connection := mg_printf connection svg_logo_path_2 in
          let connection := mg_printf connection svg_logo_path_3 in
          let connection := mg_printf connection (code_text code) in
          let connection := mg_printf connection svg_qr_backdrop in
          let qrcode := qrcode_initText 3 2 setupPayload in
          let connection :=
            qrcodeSVGPath connection qrcode
              (float_of_int 10) (float_of_int 74) (float_of_int 165) in
          Some (mg_printf connection svg_close, log)
    end
  else Some (connection, log).

End Renderer.

(** ** An instance: IEEE-754 binary32

    The operations of [float] on the usual targets, from the Standard
    Library's executable specification of binary floating point, and the
    [%.3f] conversion as the C standard describes it: the exact value is
    rounded to three decimals, ties to even. *)

Module Binary32.

Definition float : Type := spec_float.
Definition prec : Z := 24.
Definition emax : Z := 128.

Definition of_int (z : Z) : float := binary_normalize prec emax z 0 false.

(** The nearest integer to [m * 2^e * 1000], ties to even. *)
Definition thousandths (m : positive) (e : Z) : Z :=
  let n := Z.pos m * 1000 in
  if 0 <=? e then n * 2 ^ e
  else
    let d := 2 ^ (- e) in
    let q := n / d in
    let r := n mod d in
    if (d <? 2 * r) || ((2 * r =? d) && Z.odd q) then q + 1 else q.

Definition sign_text (s : bool) : string := if s then "-" else EmptyString.

Definition three_digits (n : Z) : string :=
  String (digit_char (n / 100))
    (String (digit_char (n / 10 mod 10))
       (String (digit_char (n mod 10)) EmptyString)).

Definition format_3f (x : float) : string :=
  match x with
  | S754_zero s => sign_text s ++ "0.000"
  | S754_infinity s => sign_text s ++ "inf"
  | S754_nan => "nan"
  | S754_finite s m e =>
      let n := thousandths m e in
      sign_text s ++ format_llu_loop 40 (n / 1000) EmptyString
        ++ "." ++ three_digits (n mod 1000)
  end.

#[global] Instance ops : FloatOps float := {|
  float_of_int := of_int;
  fadd := SFadd prec emax;
  fmul := SFmul prec emax;
  fdiv := SFdiv prec emax;
  printf_3f := format_3f
|}.

End Binary32.

(** A stand-in for the external generator, to run the renderer on: a
    symbol of version [v] has side [4 v + 17], and the modules form a
    checkerboard whose phase is the parity of the text's length. *)
Definition sample_initText (version ecc : Z) (data : string) : QRCode :=
  {| size := Z.to_nat (4 * version + 17);
     qrcode_getModule := fun x y => Nat.even (x + y + strlen data) |}.

(** A matrix given by its rows, for small examples. *)
Definition matrix_of_rows (rows : list (list bool)) : QRCode :=
  {| size := List.length rows;
     qrcode_getModule := fun x y => nth x (nth y rows []) false |}.

(** ** The specification's reading of a base-36 token *)

(** Following the specification: ['0'-'9'] map to 0-9 and a character
    above ['9'] to [10 + (char - 'A')]. *)
Definition base36_digit (c : ascii) : Z :=
  if uchar c >? uchar "9" then 10 + (uchar c - uchar "A") else uchar c - uchar "0".

(** Following the specification: the value of the string interpreted in
    base 36, most significant digit first. *)
Fixpoint base36_value (s : string) : Z :=
  match s with
  | EmptyString => 0
  | String c t => base36_digit c * 36 ^ Z.of_nat (String.length t) + base36_value t
  end.

Definition is_base36_digit (c : ascii) : bool :=
  ((uchar "0" <=? uchar c) && (uchar c <=? uchar "9"))
  || ((uchar "A" <=? uchar c) && (uchar c <=? uchar "Z")).

Fixpoint all_base36 (s : string) : bool :=
  match s with
  | EmptyString => true
  | String c t => is_base36_digit c && all_base36 t
  end.

(** The sum [base36ToLong] accumulates over a string when no step rounds:
    the digit the source gives each character, weighted by 36 to the power
    of its distance from the right end. *)
Fixpoint positional_value (sgn : bool) (s : string) : Z :=
  match s with
  | EmptyString => 0
  | String c t =>
      digit_value sgn c * 36 ^ Z.of_nat (String.length t) + positional_value sgn t
  end.

(** No character of [s] has a [char] value below ['0']. *)
Fixpoint none_below_zero (sgn : bool) (s : string) : bool :=
  match s with
  | EmptyString => true
  | String c t => (48 <=? char_value sgn c) && none_below_zero sgn t
  end.

(** Following the specification: a well-formed payload is exactly 20
    characters long and begins with the 7-character prefix. *)
Definition well_formed_payload (payload : string) : Prop :=
  strlen payload = 20%nat /\ String.prefix "X-HM://" payload = true.

(** ** The specification's reading of the QR path and of the badge *)

Fixpoint join (l : list string) : string :=
  match l with
  | [] => EmptyString
  | x :: r => x ++ join r
  end.

(** The cells of an [n] by [n] matrix as (column, row), in row-major order:
    all columns of row 0, then row 1, ... *)
Definition row_major (n : nat) : list (nat * nat) :=
  flat_map (fun y => map (fun x => (x, y)) (seq 0 n)) (seq 0 n).

Definition module_on (q : QRCode) (cell : nat * nat) : bool :=
  qrcode_getModule q (fst cell) (snd cell).

Definition on_modules (q : QRCode) : list (nat * nat) :=
  filter (module_on q) (row_major (size q)).

(** Row-major order on cells. *)
Definition before (a b : nat * nat) : Prop :=
  (snd a < snd b)%nat \/ (snd a = snd b /\ fst a < fst b)%nat.

(** Two matrices with the same side and the same modules. *)
Definition same_matrix (q1 q2 : QRCode) : Prop :=
  size q1 = size q2
  /\ forall x y, (x < size q1)%nat -> (y < size q1)%nat ->
                 qrcode_getModule q1 x y = qrcode_getModule q2 x y.

Section BadgeSpec.

Context {float : Type} `{FloatOps float}.

(** The path of the module at [cell], as the loop body prints it from the
    shifted origin and the scale. *)
Definition cell_path (offsetX offsetY scale : float) (cell : nat * nat) : string :=
  module_path (fadd offsetX (fmul scale (float_of_int (Z.of_nat (fst cell)))))
              (fadd offsetY (fmul scale (float_of_int (Z.of_nat (snd cell)))))
              scale.

(** Following the specification: [scale = width / (matrixSize + 2*border)]
    with a border of one module. *)
Definition qr_scale (n : nat) (width : float) : float :=
  fdiv width (float_of_int (Z.of_nat n + 2)).

(** The drawing origin, shifted by [border * scale]. *)
Definition qr_origin (n : nat) (offset width : float) : float :=
  fadd offset (fmul (float_of_int 1) (qr_scale n width)).

(** The closed square of one module: a move to its top-left corner, a
    horizontal line of length [scale], a vertical line of length [scale],
    a horizontal line of length [-scale] and a path-close. *)
Definition square_subpath (n : nat) (x_offset y_offset width : float)
           (cell : nat * nat) : string :=
  let scale := qr_scale n width in
  "M" ++ printf_3f (fadd (qr_origin n x_offset width)
                         (fmul scale (float_of_int (Z.of_nat (fst cell)))))
      ++ "," ++ printf_3f (fadd (qr_origin n y_offset width)
                                (fmul scale (float_of_int (Z.of_nat (snd cell)))))
      ++ "h" ++ printf_3f scale ++ "v" ++ printf_3f scale
      ++ "h-" ++ printf_3f scale ++ "z".

Definition qr_path_data (q : QRCode) (x_offset y_offset width : float) : string :=
  join (map (square_subpath (size q) x_offset y_offset width) (on_modules q)).

(** The [path] element of the QR code in the badge. *)
Definition qr_path_element (q : QRCode) : string :=
  lit "<path d=`"
    ++ qr_path_data q (float_of_int 10) (float_of_int 74) (float_of_int 165)
    ++ lit "`/>".

(** The static head of the badge: canvas, style, background and logo. *)
Definition badge_head : string :=
  svg_xml_declaration ++ svg_root_open ++ svg_style ++ svg_background
    ++ svg_logo_path_1 ++ svg_logo_path_2 ++ svg_logo_path_3.

(** The text element with the two halves of the code. *)
Definition code_lines (firstHalf secondHalf : string) : string :=
  svg_code_text_open ++ firstHalf ++ svg_code_text_between
    ++ secondHalf ++ svg_code_text_close.

(** What follows the code: the backdrop, the QR path and the end of the
    document. *)
Definition badge_tail (q : QRCode) : string :=
  svg_qr_backdrop ++ qr_path_element q ++ svg_close.

(** The whole badge around the two printed halves of the code. *)
Definition badge_text (q : QRCode) (firstHalf secondHalf : string) : string :=
  badge_head ++ code_lines firstHalf secondHalf ++ badge_tail q.

End BadgeSpec.

(** Following the specification: the number a string of decimal digits
    denotes. *)
Fixpoint decimal_value (s : string) : Z :=
  match s with
  | EmptyString => 0
  | String c t => (uchar c - 48) * 10 ^ Z.of_nat (String.length t) + decimal_value t
  end.

(** What a call appends to the connection and to the console. *)
Definition appended (connection : mg_connection) (log : console)
           (outcome : option (string * list string)) : option (mg_connection * console) :=
  option_map (fun w => (connection ++ fst w, (log ++ snd w)%list)) outcome.

(** ** The periodic timer *)

(** What one run of [timer_cb] reads from the system: the text of the
    [%.2lf] conversion of [mgos_uptime()], and the two heap sizes as
    [unsigned long]. *)
Record sys_reading : Type := {
  uptime_text : string;
  heap_size : Z;
  free_heap_size : Z
}.

(** The line of [timer_cb]: [%s uptime: %.2lf, RAM: %lu, %lu free]. *)
Definition timer_line (s_tick_tock : bool) (r : sys_reading) : string :=
  (if s_tick_tock then "Tick" else "Tock") ++ " uptime: " ++ uptime_text r
    ++ ", RAM: " ++ format_llu (heap_size r)
    ++ ", " ++ format_llu (free_heap_size r) ++ " free".

(** [timer_cb], on its static [s_tick_tock] and the console. *)
Definition timer_cb (r : sys_reading) (s_tick_tock : bool) (log : console)
  : bool * console :=
  (negb s_tick_tock, LOG log (timer_line s_tick_tock r)).

(** The timer firing once for each reading, in order. *)
Fixpoint timer_runs (readings : list sys_reading) (s_tick_tock : bool) (log : console)
  : bool * console :=
  match readings with
  | [] => (s_tick_tock, log)
  | r :: rest =>
      let '(s_tick_tock', log') := timer_cb r s_tick_tock log in
      timer_runs rest s_tick_tock' log'
  end.

(** ** The setup display and its event handler *)

Definition CRLF : string :=
  String (ascii_of_nat 13) (String (ascii_of_nat 10) EmptyString).

(** [HAPRawBufferCopyBytes(dst, src, n)] of the HAP library, as the [n]
    bytes it leaves in [dst]: those found at [src]. *)
Fixpoint HAPRawBufferCopyBytes (src : string) (n : nat) {struct n} : string :=
  match n with
  | O => EmptyString
  | S k => String (deref src) (HAPRawBufferCopyBytes (ptr_add src 1) k)
  end.

(** [HAPRawBufferZero(dst, n)], as the [n] bytes it leaves in [dst]. *)
Definition HAPRawBufferZero (n : nat) : string := zeros n.

(** [HAPLogInfo(&logObject, ...)] with the text its format expands to. *)
Definition HAPLogInfo (log : console) (line : string) : console := (log ++ [line])%list.

(** Modelled from the spec: the [HAPPlatformAccessorySetupDisplay] structure
    of the platform headers, declared outside this repository. The handlers
    use four fields: the [stringValue] bytes of the setup payload ("20
    characters" and a terminator) and of the setup code, and one flag for
    each telling whether it is set. *)
Record HAPPlatformAccessorySetupDisplay : Type := {
  setupPayload : string;
  setupCode : string;
  setupPayloadIsSet : bool;
  setupCodeIsSet : bool
}.

(** The argument of the update event: the new code and payload, each
    possibly null. *)
Record update_setup_payload_arg : Type := {
  arg_setupPayload : option string;
  arg_setupCode : option string
}.

Section SetupDisplay.

(** [sizeof] of the two [stringValue] structures. *)
Variable sizeof_setupCode : nat.
Variable sizeof_setupPayload : nat.

(** [UpdateSetupPayloadEventHandler] on the display [arg->setupDisplay]
    points to: the display and the console after the call. *)
Definition UpdateSetupPayloadEventHandler (arg : update_setup_payload_arg)
           (setupDisplay : HAPPlatformAccessorySetupDisplay) (log : console)
  : HAPPlatformAccessorySetupDisplay * console :=
  let '(code, codeIsSet, log) :=
    match arg_setupCode arg with
    | Some c =>
        (HAPRawBufferCopyBytes c sizeof_setupCode, true,
         HAPLogInfo log ("##### Setup code for display: " ++ c_str c))
    | None =>
        (HAPRawBufferZero sizeof_setupCode, false,
         HAPLogInfo log "##### Setup code for display invalidated.")
    end in
  let '(payload, payloadIsSet, log) :=
    match arg_setupPayload arg with
    | Some p =>
        (HAPRawBufferCopyBytes p sizeof_setupPayload, true,
         HAPLogInfo log ("##### Setup payload for QR code display: " ++ c_str p))
    | None => (HAPRawBufferZero sizeof_setupPayload, false, log)
    end in
  ({| setupPayload := payload;
      setupCode := code;
      setupPayloadIsSet := payloadIsSet;
      setupCodeIsSet := codeIsSet |},
   log).

End SetupDisplay.

(** ** The HTTP endpoint *)

(** The fields of [struct mg_connection] the handler touches: the bytes
    queued for sending and the flags word. *)
Record http_connection : Type := {
  send_mbuf : mg_connection;
  flags : Z
}.

Section Http.

Context {float : Type} `{FloatOps float}.
Variable char_is_signed : bool.
Variable qrcode_initText : Z -> Z -> string -> QRCode.

(** The constants of [mongoose.h]. *)
Variable MG_EV_HTTP_REQUEST : Z.
Variable MG_F_SEND_AND_CLOSE : Z.

(** The text [mg_send_response_line(c, status, extra_headers)] of the
    Mongoose library queues. *)
Variable response_line : Z -> string -> string.

Definition mg_send_response_line (connection : mg_connection) (status : Z)
           (extra_headers : string) : mg_connection :=
  mg_printf connection (response_line status extra_headers).

(** [HttpSetupHandler(c, ev, p, user_data)] with the display
    [platform.hapPlatform.setupDisplay] points to; [None] when the badge
    runs into the undefined conversion. *)
Definition HttpSetupHandler (setupDisplay : HAPPlatformAccessorySetupDisplay)
           (c : http_connection) (ev : Z) (log : console)
  : option (http_connection * console) :=
  if negb (ev =? MG_EV_HTTP_REQUEST) then Some (c, log)
  else
    let sent :=
      if setupPayloadIsSet setupDisplay then
        let payload := setupPayload setupDisplay in
        let connection :=
          mg_send_response_line (send_mbuf c) 200
            ("Content-Type: image/svg+xml" ++ CRLF) in
        SVGBadgeFromSetupPayload char_is_signed qrcode_initText payload connection log
      else
        let connection :=
          mg_send_response_line (send_mbuf c) 200
            ("Content-Type: text/text" ++ CRLF) in
        Some (mg_printf connection
                ("No setup payload is set. Already paired?" ++ CRLF), log) in
    match sent with
    | None => None
    | Some (connection, log) =>
        Some ({| send_mbuf := connection;
                 flags := Z.lor (flags c) MG_F_SEND_AND_CLOSE |}, log)
    end.

End Http.

(** Stand-ins for the Mongoose library, to run the handler on: the values
    of the two constants in Mongoose 6, and a response line of the usual
    shape. *)
Definition sample_MG_EV_HTTP_REQUEST : Z := 100.
Definition sample_MG_F_SEND_AND_CLOSE : Z := 1024.
Definition sample_response_line (status : Z) (extra_headers : string) : string :=
  "HTTP/1.1 " ++ format_llu status ++ " OK" ++ CRLF ++ extra_headers.

(** ** Server state updates *)

(** The calls [HandleUpdatedState] makes outside this file, in order. *)
Inductive platform_call : Type :=
| Call_HAPLogInfo (message : string)
| Call_HAPPlatformKeyValueStorePurgeDomain (domain : Z)
| Call_HAPRestoreFactorySettings
| Call_AppRelease
| Call_AppCreate
| Call_AppAccessoryServerStart
| Call_HAPRemoveAllPairings
| Call_AccessoryServerHandleUpdatedState.

(** The two static flags of the file. *)
Record reset_flags : Type := {
  requestedFactoryReset : bool;
  clearPairings : bool
}.

Definition initial_flags : reset_flags :=
  {| requestedFactoryReset := false; clearPairings := false |}.

(** What the HAP library answers during one call: whether the server is in
    [kHAPAccessoryServerState_Idle], and the [HAPError] of each of the three
    calls that return one (0 is [kHAPError_None]). *)
Record hap_answers : Type := {
  server_is_idle : bool;
  purge_error : Z;
  restore_error : Z;
  remove_pairings_error : Z
}.

(** A call returns with the flags as it leaves them, or ends in
    [HAPFatalError] (or in the failing [HAPAssert] before it). *)
Inductive handler_outcome : Type :=
| Returned (flags_after : reset_flags) (calls : list platform_call)
| FatalError (calls : list platform_call).

(** [RestorePlatformFactorySettings]: the body is empty. *)
Definition RestorePlatformFactorySettings (calls : list platform_call)
  : list platform_call := calls.

Definition HandleUpdatedState (answers : hap_answers) (fl : reset_flags)
  : handler_outcome :=
  if server_is_idle answers && requestedFactoryReset fl then
    let calls :=
      [Call_HAPLogInfo "A factory reset has been requested.";
       Call_HAPPlatformKeyValueStorePurgeDomain 0] in
    if negb (purge_error answers =? 0) then FatalError calls
    else
      let calls := (calls ++ [Call_HAPRestoreFactorySettings])%list in
      if negb (restore_error answers =? 0) then FatalError calls
      else
        let calls := RestorePlatformFactorySettings calls in
        let calls := (calls ++ [Call_AppRelease])%list in
        let fl := {| requestedFactoryReset := false;
                     clearPairings := clearPairings fl |} in
        Returned fl (calls ++ [Call_AppCreate; Call_AppAccessoryServerStart])%list
  else if server_is_idle answers && clearPairings fl then
    let calls := [Call_HAPRemoveAllPairings] in
    if negb (remove_pairings_error answers =? 0) then FatalError calls
    else Returned fl (calls ++ [Call_AppAccessoryServerStart])%list
  else Returned fl [Call_AccessoryServerHandleUpdatedState].

(** A sequence of state updates: the flags and the calls made, until one
    update ends in a fatal error. *)
Fixpoint state_updates (updates : list hap_answers) (fl : reset_flags)
  : handler_outcome :=
  match updates with
  | [] => Returned fl []
  | answers :: rest =>
      match HandleUpdatedState answers fl with
      | FatalError calls => FatalError calls
      | Returned fl' calls =>
          match state_updates rest fl' with
          | FatalError calls' => FatalError (calls ++ calls')%list
          | Returned fl'' calls' => Returned fl'' (calls ++ calls')%list
          end
      end
  end.

(** The calls of an outcome, returned or not. *)
Definition calls_of (o : handler_outcome) : list platform_call :=
  match o with
  | Returned _ calls => calls
  | FatalError calls => calls
  end.

(** An update that finds the server idle and whose removal of the pairings
    returns no error. *)
Definition idle_without_error (answers : hap_answers) : Prop :=
  server_is_idle answers = true /\ remove_pairings_error answers = 0.

(** ** Readings used by the further properties *)

(** The number a binary32 value prints as under [%.3f], in thousandths. *)
Definition printed_thousandths (x : Binary32.float) : option Z :=
  match x with
  | S754_zero _ => Some 0
  | S754_finite s m e =>
      Some ((if s then -1 else 1) * Binary32.thousandths m e)
  | _ => None
  end.

(** Whether every square printed for an [n] by [n] matrix, drawn in the
    box of width 165 at (10, 74), lies in that box: corners not before
    (10, 74), corners plus side not past (175, 239), in thousandths as
    printed. *)
Definition squares_inside_box (n : nat) : bool :=
  let width : Binary32.float := float_of_int 165 in
  let scale := qr_scale n width in
  let originX := qr_origin n (float_of_int 10) width in
  let originY := qr_origin n (float_of_int 74) width in
  match printed_thousandths scale with
  | Some s =>
      forallb
        (fun k =>
           let d := fmul scale (float_of_int (Z.of_nat k)) in
           match printed_thousandths (fadd originX d),
                 printed_thousandths (fadd originY d) with
           | Some X, Some Y =>
               (10000 <=? X) && (X + s <=? 175000)
               && (74000 <=? Y) && (Y + s <=? 239000)
           | _, _ => false
           end)
        (seq 0 n)
  | None => false
  end.

(** Every character is a decimal digit. *)
Fixpoint all_decimal (s : string) : bool :=
  match s with
  | EmptyString => true
  | String c t => (48 <=? uchar c) && (uchar c <=? 57) && all_decimal t
  end.

(** ** Proof tactics *)

(** From [H : strlen p = S n]: [p] starts with a character that is not NUL,
    and the rest has C length [n]. *)
Ltac peel H :=
  match type of H with
  | strlen ?p = S _ =>
      let c := fresh "c" in
      let t := fresh "t" in
      destruct p as [|c t]; [discriminate H|];
      cbn [strlen] in H;
      destruct (Ascii.eqb c NUL) eqn:?; [discriminate H|];
      apply eq_add_S in H
  end.

(** Runs the buffer operations on strings given character by character. *)
Ltac buffers :=
  repeat first
    [ progress cbn [snprintf substring String.append store_bytes store zeros
                    strncpy strncpy_bytes deref ptr_add c_str strlen String.length]
    | match goal with
      | E : Ascii.eqb ?c NUL = false |- context [Ascii.eqb ?c NUL] => rewrite E
      end
    | progress change (Ascii.eqb NUL NUL) with true ].

(** * Properties *)

(** ** Strings *)

Lemma append_assoc (a b c : string) : (a ++ b) ++ c = a ++ (b ++ c).
Proof.
  induction a as [|x a IH]; simpl; [reflexivity | now rewrite IH].
Qed.

Lemma append_empty_r (a : string) : a ++ EmptyString = a.
Proof.
  induction a as [|x a IH]; simpl; [reflexivity | now rewrite IH].
Qed.

Lemma uchar_range (c : ascii) : 0 <= uchar c < 256.
Proof.
  unfold uchar. pose proof (N_ascii_bounded c). lia.
Qed.

Lemma uchar_inj (a b : ascii) : uchar a = uchar b -> a = b.
Proof.
  unfold uchar. intros E.
  rewrite <- (ascii_N_embedding a), <- (ascii_N_embedding b).
  f_equal. lia.
Qed.

Lemma eqb_NUL_false (c : ascii) : uchar c <> 0 -> Ascii.eqb c NUL = false.
Proof.
  intros Hc. apply Ascii.eqb_neq. intros ->. apply Hc. reflexivity.
Qed.

(** Where the string has a character, the pointer can be split there. *)
Lemma ptr_add_char (s : string) (n : nat) :
  (n < String.length s)%nat ->
  ptr_add s n = String (char_at s n) (ptr_add s (S n))
  /\ String.length (ptr_add s (S n)) = (String.length s - S n)%nat.
Proof.
  revert s. induction n as [|n IH]; intros [|c t] Hn; simpl in Hn; try lia.
  - split; [reflexivity | simpl; lia].
  - destruct (IH t) as [E L]; [lia|].
    unfold char_at in *. simpl. split; [exact E | exact L].
Qed.

Lemma ptr_add_length (s : string) : ptr_add s (String.length s) = EmptyString.
Proof.
  induction s as [|c t IH]; [reflexivity | exact IH].
Qed.

(** [strncmp] against a literal without NUL tests for the prefix. *)
Lemma strncmp_literal (l p : string) :
  strlen l = String.length l ->
  (strncmp p l (String.length l) =? 0) = String.prefix l p.
Proof.
  revert p. induction l as [|a l IH]; intros p Hl.
  - destruct p; reflexivity.
  - simpl in Hl. destruct (Ascii.eqb a NUL) eqn:Ea; [discriminate|].
    injection Hl as Hl.
    assert (Ha : uchar a <> 0).
    { intros E. apply Ascii.eqb_neq in Ea. apply Ea. apply uchar_inj. exact E. }
    destruct p as [|b p]; cbn [strncmp deref String.length String.prefix ptr_add].
    + change (Ascii.eqb NUL a) with (Ascii.eqb Ascii.zero a).
      rewrite Ascii.eqb_sym. fold NUL. rewrite Ea. cbn [negb].
      apply Z.eqb_neq. change (uchar NUL) with 0. lia.
    + destruct (ascii_dec a b) as [<-|Hab].
      * rewrite Ascii.eqb_refl, Ea. cbn [negb]. apply IH. exact Hl.
      * assert (Eb : Ascii.eqb b a = false) by (apply Ascii.eqb_neq; congruence).
        rewrite Eb. cbn [negb]. apply Z.eqb_neq.
        intros E. apply Hab. symmetry. apply uchar_inj. lia.
Qed.

Lemma is_setup_payload_prefix (p : string) :
  is_setup_payload p = (strlen p =? 20)%nat && String.prefix "X-HM://" p.
Proof.
  unfold is_setup_payload. f_equal.
  exact (strncmp_literal "X-HM://" p eq_refl).
Qed.

Lemma well_formed_is_setup_payload (p : string) :
  well_formed_payload p <-> is_setup_payload p = true.
Proof.
  rewrite is_setup_payload_prefix, andb_true_iff, Nat.eqb_eq.
  reflexivity.
Qed.


(** ** Binary64 is exact on integers below [2^53] *)

Lemma round_nearest_even_small (x : Z) :
  Z.abs x < 2 ^ 53 -> Double.round_nearest_even x = x.
Proof.
  intros Hx. unfold Double.round_nearest_even.
  destruct (Z.ltb_spec (Z.abs x) (2 ^ 53)); [reflexivity | lia].
Qed.

Lemma of_Z_small (x : Z) : Z.abs x < 2 ^ 53 -> Double.of_Z x = Double.Finite x.
Proof.
  intros Hx. unfold Double.of_Z.
  rewrite (round_nearest_even_small x Hx).
  assert (Hp : 2 ^ 53 < 2 ^ 1024) by (apply Z.pow_lt_mono_r; lia).
  destruct (Z.ltb_spec (Z.abs x) (2 ^ 1024)); [reflexivity | lia].
Qed.

Lemma to_uint64_some (d : Double.double) (z : Z) :
  Double.to_uint64 d = Some z -> 0 <= z < 2 ^ 64.
Proof.
  destruct d as [y|]; cbn [Double.to_uint64]; [|discriminate].
  destruct (Z.leb_spec 0 y); destruct (Z.ltb_spec y (2 ^ 64)); cbn [andb];
    try discriminate.
  intros E. injection E as E. lia.
Qed.

(** One step of the accumulation is the exact sum while it stays below
    [2^53]. *)
Lemma accumulate_exact (result value : Z) (i : nat) :
  0 <= result -> 0 <= value ->
  36 ^ Z.of_nat i < 2 ^ 53 ->
  result + value * 36 ^ Z.of_nat i < 2 ^ 53 ->
  accumulate result value i = Some (result + value * 36 ^ Z.of_nat i).
Proof.
  intros Hr Hv Hp Hs.
  assert (H1 : 1 <= 36 ^ Z.of_nat i) by (apply Z.pow_le_mono_r with (b := 0); lia).
  assert (Hm : 0 <= value * 36 ^ Z.of_nat i) by nia.
  assert (Hv' : value <= value * 36 ^ Z.of_nat i) by nia.
  assert (H64 : 2 ^ 53 < 2 ^ 64) by (apply Z.pow_lt_mono_r; lia).
  unfold accumulate, Double.pow.
  rewrite (of_Z_small result), (of_Z_small value), (of_Z_small (36 ^ Z.of_nat i)) by lia.
  cbn [Double.mul]. rewrite of_Z_small by lia.
  cbn [Double.add]. rewrite of_Z_small by lia.
  cbn [Double.to_uint64].
  destruct (Z.leb_spec 0 (result + value * 36 ^ Z.of_nat i)); [|lia].
  destruct (Z.ltb_spec (result + value * 36 ^ Z.of_nat i) (2 ^ 64)); [|lia].
  reflexivity.
Qed.

(** ** The decoder where no step rounds *)

Lemma char_value_above_zero (sgn : bool) (c : ascii) :
  48 <= char_value sgn c ->
  0 <= digit_value sgn c <= 200 /\ Ascii.eqb c NUL = false.
Proof.
  intros Hc. pose proof (uchar_range c) as Hu.
  assert (Hv : char_value sgn c <= 255 /\ uchar c <> 0).
  { unfold char_value in *.
    destruct ((128 <=? uchar c) && sgn); lia. }
  split; [|apply eqb_NUL_false; tauto].
  unfold digit_value. destruct (Z.gtb_spec (char_value sgn c) 57); lia.
Qed.

Lemma none_below_zero_strlen (sgn : bool) (s : string) :
  none_below_zero sgn s = true -> strlen s = String.length s.
Proof.
  induction s as [|c t IH]; intros Hs; [reflexivity|].
  cbn [none_below_zero] in Hs. apply andb_true_iff in Hs. destruct Hs as [Hc Ht].
  apply Z.leb_le in Hc. destruct (char_value_above_zero sgn c Hc) as [_ E].
  cbn [strlen String.length]. rewrite E. now rewrite IH.
Qed.

Lemma none_below_zero_ptr_add (sgn : bool) (s : string) (n : nat) :
  none_below_zero sgn s = true -> none_below_zero sgn (ptr_add s n) = true.
Proof.
  revert s. induction n as [|n IH]; intros [|c t] Hs; try exact Hs; try reflexivity.
  cbn [none_below_zero] in Hs. apply andb_true_iff in Hs.
  cbn [ptr_add]. apply IH. tauto.
Qed.

Lemma positional_value_range (sgn : bool) (s : string) :
  none_below_zero sgn s = true ->
  0 <= positional_value sgn s < 6 * 36 ^ Z.of_nat (String.length s).
Proof.
  induction s as [|c t IH]; intros Hs.
  - cbn. lia.
  - cbn [none_below_zero] in Hs. apply andb_true_iff in Hs. destruct Hs as [Hc Ht].
    apply Z.leb_le in Hc. destruct (char_value_above_zero sgn c Hc) as [Hd _].
    specialize (IH Ht).
    cbn [positional_value String.length].
    rewrite Nat2Z.inj_succ, Z.pow_succ_r by lia.
    nia.
Qed.

(** The characters already read never weigh more than the whole string. *)
Lemma positional_value_suffix (sgn : bool) (n : nat) :
  forall s, none_below_zero sgn s = true ->
  positional_value sgn (ptr_add s n) <= positional_value sgn s.
Proof.
  induction n as [|n IH]; intros [|c t] Hs; cbn [ptr_add]; try lia.
  cbn [none_below_zero] in Hs. apply andb_true_iff in Hs. destruct Hs as [Hc Ht].
  apply Z.leb_le in Hc. destruct (char_value_above_zero sgn c Hc) as [Hd _].
  specialize (IH t Ht). cbn [positional_value].
  assert (0 <= 36 ^ Z.of_nat (String.length t)) by (apply Z.pow_nonneg; lia).
  nia.
Qed.

(** The loop invariant: with [len] characters left to read, [result] is the
    value of the characters already read and [i] is their number. *)
Lemma base36ToLong_loop_exact (sgn : bool) (s : string) :
  none_below_zero sgn s = true -> (String.length s <= 10)%nat ->
  positional_value sgn s < 2 ^ 53 ->
  forall len, (len <= String.length s)%nat ->
  base36ToLong_loop sgn s len (String.length s - len)
    (positional_value sgn (ptr_add s len))
  = Some (positional_value sgn s).
Proof.
  intros Hs Hlen Hsmall len. induction len as [|len IH]; intros Hle.
  - reflexivity.
  - destruct (ptr_add_char s len) as [E L]; [lia|].
    pose proof (none_below_zero_ptr_add sgn s len Hs) as Hd.
    pose proof (positional_value_suffix sgn len s Hs) as Hv.
    pose proof (positional_value_range sgn _
                  (none_below_zero_ptr_add sgn s (S len) Hs)) as Hw.
    rewrite E in Hd, Hv. cbn [none_below_zero] in Hd.
    apply andb_true_iff in Hd. destruct Hd as [Hc _]. apply Z.leb_le in Hc.
    destruct (char_value_above_zero sgn _ Hc) as [Hdig _].
    cbn [positional_value] in Hv. rewrite L in Hv.
    assert (H36 : 36 ^ Z.of_nat (String.length s - S len) <= 36 ^ 9)
      by (apply Z.pow_le_mono_r; lia).
    assert (Hc53 : 36 ^ 9 < 2 ^ 53) by (vm_compute; reflexivity).
    cbn [base36ToLong_loop].
    rewrite accumulate_exact; try lia.
    replace (S (String.length s - S len)) with (String.length s - len)%nat by lia.
    replace (positional_value sgn (ptr_add s (S len))
             + digit_value sgn (char_at s len)
               * 36 ^ Z.of_nat (String.length s - S len))
      with (positional_value sgn (ptr_add s len)).
    + apply IH. lia.
    + rewrite E at 1. cbn [positional_value]. rewrite L. lia.
Qed.

Lemma base36ToLong_exact (sgn : bool) (s : string) :
  none_below_zero sgn s = true -> (String.length s <= 10)%nat ->
  positional_value sgn s < 2 ^ 53 ->
  base36ToLong sgn s = Some (positional_value sgn s).
Proof.
  intros Hs Hlen Hsmall. unfold base36ToLong.
  rewrite (none_below_zero_strlen sgn s Hs).
  pose proof (base36ToLong_loop_exact sgn s Hs Hlen Hsmall
                (String.length s) (le_n _)) as H.
  rewrite Nat.sub_diag, ptr_add_length in H. exact H.
Qed.

(** Nine characters never reach [2^53], whatever they are above ['0']. *)
Lemma base36ToLong_token (sgn : bool) (s : string) :
  none_below_zero sgn s = true -> (String.length s <= 9)%nat ->
  base36ToLong sgn s = Some (positional_value sgn s).
Proof.
  intros Hs Hlen. apply base36ToLong_exact; [exact Hs | lia |].
  pose proof (positional_value_range sgn s Hs) as Hr.
  assert (H36 : 36 ^ Z.of_nat (String.length s) <= 36 ^ 9)
    by (apply Z.pow_le_mono_r; lia).
  assert (Hc53 : 6 * 36 ^ 9 < 2 ^ 53) by (vm_compute; reflexivity).
  lia.
Qed.

(** ** The decoder on base-36 digits *)

Lemma base36_digit_range (c : ascii) :
  is_base36_digit c = true ->
  (48 <= uchar c <= 57 \/ 65 <= uchar c <= 90) /\ 0 <= base36_digit c <= 35.
Proof.
  unfold is_base36_digit, base36_digit.
  change (uchar "0") with 48. change (uchar "9") with 57.
  change (uchar "A") with 65. change (uchar "Z") with 90.
  intros Hc. apply orb_true_iff in Hc.
  destruct (Z.gtb_spec (uchar c) 57); destruct Hc as [Hc|Hc];
    apply andb_true_iff in Hc; destruct Hc as [Hl Hu];
    apply Z.leb_le in Hl; apply Z.leb_le in Hu; lia.
Qed.

(** On a base-36 digit the source's branch computes the specification's
    digit, whatever the signedness of [char]. *)
Lemma digit_value_base36 (sgn : bool) (c : ascii) :
  is_base36_digit c = true ->
  digit_value sgn c = base36_digit c /\ 48 <= char_value sgn c.
Proof.
  intros Hc. destruct (base36_digit_range c Hc) as [Hr _].
  unfold digit_value, char_value, base36_digit.
  change (uchar "0") with 48. change (uchar "9") with 57.
  change (uchar "A") with 65.
  destruct (Z.leb_spec 128 (uchar c)); [lia|]. cbn [andb].
  destruct (Z.gtb_spec (uchar c) 57); lia.
Qed.

Lemma base36_value_range (s : string) :
  all_base36 s = true -> 0 <= base36_value s < 36 ^ Z.of_nat (String.length s).
Proof.
  induction s as [|c t IH]; intros Hs.
  - simpl. lia.
  - cbn [all_base36] in Hs. apply andb_true_iff in Hs. destruct Hs as [Hc Ht].
    specialize (IH Ht). destruct (base36_digit_range c Hc) as [_ Hd].
    cbn [base36_value String.length].
    rewrite Nat2Z.inj_succ, Z.pow_succ_r by lia.
    nia.
Qed.

Lemma all_base36_positional (sgn : bool) (s : string) :
  all_base36 s = true ->
  none_below_zero sgn s = true /\ positional_value sgn s = base36_value s.
Proof.
  induction s as [|c t IH]; intros Hs; [split; reflexivity|].
  cbn [all_base36] in Hs. apply andb_true_iff in Hs. destruct Hs as [Hc Ht].
  destruct (IH Ht) as [Hn Hv]. destruct (digit_value_base36 sgn c Hc) as [Hd Hz].
  cbn [none_below_zero positional_value base36_value].
  rewrite Hn, Hv, Hd. apply Z.leb_le in Hz. rewrite Hz. split; reflexivity.
Qed.

Lemma base36ToLong_digits (sgn : bool) (s : string) :
  all_base36 s = true -> (String.length s <= 10)%nat ->
  base36ToLong sgn s = Some (base36_value s).
Proof.
  intros Hs Hlen. destruct (all_base36_positional sgn s Hs) as [Hn Hv].
  rewrite <- Hv. apply base36ToLong_exact; [exact Hn | exact Hlen |].
  pose proof (base36_value_range s Hs) as Hr.
  assert (H36 : 36 ^ Z.of_nat (String.length s) <= 36 ^ 10)
    by (apply Z.pow_le_mono_r; lia).
  assert (Hc53 : 36 ^ 10 < 2 ^ 53) by (vm_compute; reflexivity).
  lia.
Qed.

(** The loop reads only the characters below [len]. *)
Lemma base36ToLong_loop_ext (sgn : bool) (s s' : string) (len : nat) :
  (forall k, (k < len)%nat -> char_at s k = char_at s' k) ->
  forall i result,
  base36ToLong_loop sgn s len i result = base36ToLong_loop sgn s' len i result.
Proof.
  induction len as [|len IH]; intros Hext i result; [reflexivity|].
  cbn [base36ToLong_loop]. rewrite (Hext len) by lia.
  destruct (accumulate result (digit_value sgn (char_at s' len)) i); [|reflexivity].
  apply IH. intros k Hk. apply Hext. lia.
Qed.

(** The token buffer of a well-formed payload decodes like the nine
    characters that follow the prefix. *)
Lemma base36ToLong_setupCode_buffer (sgn : bool) (p : string) :
  strlen p = 20%nat ->
  base36ToLong sgn (setupCode_buffer p) = base36ToLong sgn (substring 7 9 p).
Proof.
  intros H. do 20 peel H.
  cbn [setupCode_buffer copy_loop ptr_add zeros store deref substring].
  unfold base36ToLong. cbn [strlen].
  repeat match goal with E : Ascii.eqb _ NUL = false |- _ => rewrite E; clear E end.
  apply base36ToLong_loop_ext.
  intros k Hk.
  do 9 (destruct k as [|k]; [reflexivity|]). lia.
Qed.

Lemma land_mask_range (d : Z) : 0 <= Z.land d 134217727 <= 134217727.
Proof.
  change 134217727 with (Z.ones 27) at 1 2.
  rewrite Z.land_ones by lia.
  pose proof (Z.mod_pos_bound d (2 ^ 27) eq_refl) as Hm.
  change (2 ^ 27) with 134217728 in *. lia.
Qed.

Lemma substring_length_le (s : string) :
  forall n m, (String.length (substring n m s) <= m)%nat.
Proof.
  induction s as [|c t IH]; intros [|n] [|m]; cbn [substring String.length]; try lia.
  - specialize (IH 0%nat m). lia.
  - apply IH.
  - apply IH.
Qed.

(** On a well-formed payload the code is the masked decoding of the nine
    characters after the prefix. *)
Lemma codeFromSetupPayload_token (sgn : bool) (p : string) :
  is_setup_payload p = true ->
  codeFromSetupPayload sgn p
  = option_map (fun decoded => Z.land decoded 134217727)
               (base36ToLong sgn (substring 7 9 p)).
Proof.
  intros Ev. unfold codeFromSetupPayload. rewrite Ev.
  apply well_formed_is_setup_payload in Ev.
  rewrite (base36ToLong_setupCode_buffer sgn p (proj1 Ev)).
  destruct (base36ToLong sgn (substring 7 9 p)); reflexivity.
Qed.

(** C1: for every well-formed payload, [codeFromSetupPayload] is
    [base36ToLong] of the nine characters after the prefix, masked with
    [0x7FFFFFF] (and undefined exactly when that decoding is); a token that
    decodes to [0x8000001] gives the code [1]; and on a token of base-36
    digits the code is the masked base-36 value. *)
Theorem codeFromSetupPayload_masks_token (sgn : bool) (payload : string) :
  well_formed_payload payload ->
  let token := substring 7 9 payload in
  codeFromSetupPayload sgn payload
    = option_map (fun decoded => Z.land decoded 134217727) (base36ToLong sgn token)
  /\ (base36ToLong sgn token = Some 134217729 ->
      codeFromSetupPayload sgn payload = Some 1)
  /\ (all_base36 token = true ->
      codeFromSetupPayload sgn payload = Some (Z.land (base36_value token) 134217727)).
Proof.
  intros Hwf token.
  assert (Hcode : codeFromSetupPayload sgn payload
                  = option_map (fun decoded => Z.land decoded 134217727)
                               (base36ToLong sgn token)).
  { apply codeFromSetupPayload_token. apply well_formed_is_setup_payload. exact Hwf. }
  split; [exact Hcode|]. split.
  - intros Hd. rewrite Hcode, Hd. reflexivity.
  - intros Hdigits. rewrite Hcode.
    rewrite (base36ToLong_digits sgn token Hdigits); [reflexivity|].
    pose proof (substring_length_le payload 7 9). subst token. lia.
Qed.

Lemma codeFromSetupPayload_masks_token_witness :
  codeFromSetupPayload false "X-HM://00027WR29ABCD"
    = option_map (fun decoded => Z.land decoded 134217727)
                 (base36ToLong false "00027WR29")
  /\ (base36ToLong false "00027WR29" = Some 134217729 ->
      codeFromSetupPayload false "X-HM://00027WR29ABCD" = Some 1)
  /\ (all_base36 "00027WR29" = true ->
      codeFromSetupPayload false "X-HM://00027WR29ABCD"
      = Some (Z.land (base36_value "00027WR29") 134217727)).
Proof.
  apply (codeFromSetupPayload_masks_token false "X-HM://00027WR29ABCD").
  split; reflexivity.
Defined.

(** C2 (amended): for every string of at most ten base-36 digits,
    [base36ToLong] returns the value of the string read in base 36, most
    significant digit first, with ['0'-'9'] as 0-9 and a character above
    ['9'] as [10 + (char - 'A')]; in particular ["000000000"] decodes to 0,
    ["000000001"] to 1 and ["ZZZZZZZZZ"] to [36^9 - 1]. *)
Theorem base36ToLong_value (sgn : bool) :
  (forall s, all_base36 s = true -> (String.length s <= 10)%nat ->
             base36ToLong sgn s = Some (base36_value s))
  /\ base36ToLong sgn "000000000" = Some 0
  /\ base36ToLong sgn "000000001" = Some 1
  /\ base36ToLong sgn "ZZZZZZZZZ" = Some (36 ^ 9 - 1).
Proof.
  split; [exact (base36ToLong_digits sgn)|].
  repeat split; rewrite base36ToLong_digits; try reflexivity; cbn; lia.
Qed.

Lemma base36ToLong_value_witness :
  base36ToLong false "0032SP5MT" = Some (base36_value "0032SP5MT").
Proof.
  apply (proj1 (base36ToLong_value false)); [reflexivity | cbn; lia].
Defined.

(** C2, as stated, fails on a string of eleven digits: the value of
    ["Z0000000001"] is odd and above [2^53], so no [double] holds it, and
    the sum computed in [double] is rounded to the even neighbour. *)
Lemma base36ToLong_eleven_digits_rounded :
  all_base36 "Z0000000001" = true
  /\ base36_value "Z0000000001" = 127965545402204161
  /\ base36ToLong false "Z0000000001" = Some 127965545402204160
  /\ base36ToLong true "Z0000000001" = Some 127965545402204160
  /\ base36ToLong false "Z0000000001" <> Some (base36_value "Z0000000001").
Proof.
  repeat split; try (vm_compute; reflexivity).
  vm_compute. discriminate.
Qed.

(** Thirteen digits can exceed [uint64_t]: the conversion of the sum is
    then undefined. *)
Lemma base36ToLong_thirteen_digits_undefined :
  2 ^ 64 <= base36_value "Z000000000000"
  /\ base36ToLong false "Z000000000000" = None.
Proof.
  split; [vm_compute; discriminate | vm_compute; reflexivity].
Qed.

(** C5: a string that is not 20 characters long or does not begin with
    ["X-HM://"] gives the code 0, whatever else it holds: the token is not
    decoded, so the result is defined even where decoding would not be. *)
Theorem codeFromSetupPayload_rejects (sgn : bool) (payload : string) :
  strlen payload <> 20%nat \/ String.prefix "X-HM://" payload = false ->
  codeFromSetupPayload sgn payload = Some 0.
Proof.
  intros Hbad. unfold codeFromSetupPayload.
  rewrite is_setup_payload_prefix.
  destruct Hbad as [Hlen|Hpre].
  - apply Nat.eqb_neq in Hlen. rewrite Hlen. reflexivity.
  - rewrite Hpre, andb_false_r. reflexivity.
Qed.

Lemma codeFromSetupPayload_rejects_witness :
  codeFromSetupPayload false "x-hm://0032SP5/TABCD" = Some 0.
Proof.
  apply (codeFromSetupPayload_rejects false "x-hm://0032SP5/TABCD").
  right. reflexivity.
Defined.

(** ** The QR path *)

Lemma join_app (l1 l2 : list string) : join (l1 ++ l2)%list = join l1 ++ join l2.
Proof.
  induction l1 as [|x l1 IH]; cbn [join List.app]; [reflexivity|].
  now rewrite IH, append_assoc.
Qed.

Section PathProperties.

Context {float : Type} `{FloatOps float}.

(** The inner loop appends the paths of the on modules of row [y], from
    column [i] on, in the order of the columns. *)
Lemma row_loop_appends (q : QRCode) (ox oy scale : float) (y : nat) :
  forall count i connection,
  for_loop count i (module_step q ox oy scale y) connection
  = connection
      ++ join (map (cell_path ox oy scale)
                   (filter (module_on q) (map (fun x => (x, y)) (seq i count)))).
Proof.
  induction count as [|count IH]; intros i connection.
  - cbn. now rewrite append_empty_r.
  - cbn [for_loop seq map filter]. rewrite IH.
    change (module_on q (i, y)) with (qrcode_getModule q i y).
    unfold module_step.
    destruct (qrcode_getModule q i y); [|reflexivity].
    cbn [map join]. unfold mg_printf. rewrite append_assoc. reflexivity.
Qed.

(** The outer loop does so row after row. *)
Lemma matrix_loop_appends (q : QRCode) (ox oy scale : float) (n : nat) :
  forall count i connection,
  for_loop count i (fun y => for_loop n 0 (module_step q ox oy scale y)) connection
  = connection
      ++ join (map (cell_path ox oy scale)
                   (filter (module_on q)
                      (flat_map (fun y => map (fun x => (x, y)) (seq 0 n))
                                (seq i count)))).
Proof.
  induction count as [|count IH]; intros i connection.
  - cbn. now rewrite append_empty_r.
  - cbn [for_loop seq flat_map]. rewrite IH, row_loop_appends.
    rewrite filter_app, map_app, join_app, append_assoc. reflexivity.
Qed.

Lemma qrcodeSVGPath_appends (connection : mg_connection) (q : QRCode)
      (x_offset y_offset width : float) :
  qrcodeSVGPath connection q x_offset y_offset width
  = connection ++ lit "<path d=`"
      ++ qr_path_data q x_offset y_offset width ++ lit "`/>".
Proof.
  unfold qrcodeSVGPath. rewrite matrix_loop_appends.
  unfold mg_printf. rewrite !append_assoc. reflexivity.
Qed.

End PathProperties.

(** The cells of [row_major] are those of the matrix, in row-major order. *)

Lemma in_row_major (n x y : nat) :
  In (x, y) (row_major n) <-> (x < n)%nat /\ (y < n)%nat.
Proof.
  unfold row_major. rewrite in_flat_map. split.
  - intros (y' & Hy & Hx). apply in_map_iff in Hx. destruct Hx as (x' & E & Hx).
    injection E as -> ->. apply in_seq in Hy, Hx. lia.
  - intros [Hx Hy]. exists y. split; [apply in_seq; lia|].
    apply in_map_iff. exists x. split; [reflexivity | apply in_seq; lia].
Qed.

Lemma row_sorted (y : nat) :
  forall count i, StronglySorted before (map (fun x => (x, y)) (seq i count)).
Proof.
  induction count as [|count IH]; intros i; cbn [seq map]; constructor.
  - apply IH.
  - apply Forall_forall. intros [x' y'] Hin.
    apply in_map_iff in Hin. destruct Hin as (x & E & Hx).
    injection E as <- <-. apply in_seq in Hx.
    right. cbn. lia.
Qed.

Lemma StronglySorted_app {A : Type} (R : A -> A -> Prop) (l1 l2 : list A) :
  StronglySorted R l1 -> StronglySorted R l2 ->
  (forall a b, In a l1 -> In b l2 -> R a b) ->
  StronglySorted R (l1 ++ l2)%list.
Proof.
  induction l1 as [|a l1 IH]; intros H1 H2 H12; [exact H2|].
  cbn [List.app]. inversion H1 as [|? ? Hs Hf]; subst. constructor.
  - apply IH; [exact Hs | exact H2 | intros; apply H12; [now right | assumption]].
  - apply Forall_app. split; [exact Hf|].
    apply Forall_forall. intros b Hb. apply H12; [now left | exact Hb].
Qed.

Lemma rows_sorted (n : nat) :
  forall count i,
  StronglySorted before
    (flat_map (fun y => map (fun x => (x, y)) (seq 0 n)) (seq i count)).
Proof.
  induction count as [|count IH]; intros i; cbn [seq flat_map]; [constructor|].
  apply StronglySorted_app; [apply row_sorted | apply IH|].
  intros [x1 y1] [x2 y2] H1 H2.
  apply in_map_iff in H1. destruct H1 as (x & E & _). injection E as <- <-.
  apply in_flat_map in H2. destruct H2 as (y & Hy & Hx).
  apply in_map_iff in Hx. destruct Hx as (x' & E & _). injection E as <- <-.
  apply in_seq in Hy. left. cbn. lia.
Qed.

Lemma StronglySorted_filter {A : Type} (R : A -> A -> Prop) (f : A -> bool) (l : list A) :
  StronglySorted R l -> StronglySorted R (filter f l).
Proof.
  induction 1 as [|a l Hs IH Hf]; cbn [filter]; [constructor|].
  destruct (f a); [|exact IH].
  constructor; [exact IH|].
  apply Forall_forall. intros b Hb. apply filter_In in Hb.
  rewrite Forall_forall in Hf. apply Hf. tauto.
Qed.

Lemma on_modules_spec (q : QRCode) :
  (forall x y, In (x, y) (on_modules q)
               <-> (x < size q)%nat /\ (y < size q)%nat /\ qrcode_getModule q x y = true)
  /\ StronglySorted before (on_modules q).
Proof.
  split.
  - intros x y. unfold on_modules. rewrite filter_In, in_row_major.
    unfold module_on. cbn [fst snd]. tauto.
  - apply StronglySorted_filter. apply rows_sorted.
Qed.

(** Matrices with the same modules have the same on modules. *)
Lemma same_matrix_on_modules (q1 q2 : QRCode) :
  same_matrix q1 q2 -> on_modules q1 = on_modules q2.
Proof.
  intros [Hsize Hmod]. unfold on_modules. rewrite <- Hsize.
  apply filter_ext_in. intros [x y] Hin. apply in_row_major in Hin.
  unfold module_on. cbn [fst snd]. apply Hmod; tauto.
Qed.

(** ** Decimal formatting and the two halves of the code *)

Lemma digit_char_spec (d : Z) :
  0 <= d < 10 -> Ascii.eqb (digit_char d) NUL = false /\ uchar (digit_char d) - 48 = d.
Proof.
  intros Hd.
  assert (E : d = 0 \/ d = 1 \/ d = 2 \/ d = 3 \/ d = 4
              \/ d = 5 \/ d = 6 \/ d = 7 \/ d = 8 \/ d = 9) by lia.
  repeat (destruct E as [->|E]; [split; reflexivity|]).
  subst d. split; reflexivity.
Qed.

(** The formatted text holds no NUL. *)
Lemma format_llu_loop_strlen (fuel : nat) :
  forall n acc, strlen acc = String.length acc ->
  strlen (format_llu_loop fuel n acc) = String.length (format_llu_loop fuel n acc).
Proof.
  induction fuel as [|fuel IH]; intros n acc Hacc; [exact Hacc|].
  cbn [format_llu_loop].
  assert (Hacc' : strlen (String (digit_char (n mod 10)) acc)
                  = String.length (String (digit_char (n mod 10)) acc)).
  { cbn [strlen String.length].
    rewrite (proj1 (digit_char_spec (n mod 10) (Z.mod_pos_bound n 10 eq_refl))).
    now rewrite Hacc. }
  destruct (n / 10 =? 0); [exact Hacc' | apply IH; exact Hacc'].
Qed.

(** A number below [10^(k+1)] has at most [k+1] digits. *)
Lemma format_llu_loop_length (fuel : nat) :
  forall k n acc, 0 <= n < 10 ^ Z.of_nat (S k) ->
  (String.length (format_llu_loop fuel n acc) <= String.length acc + S k)%nat.
Proof.
  induction fuel as [|fuel IH]; intros k n acc Hn; [cbn; lia|].
  cbn [format_llu_loop].
  destruct (Z.eqb_spec (n / 10) 0) as [E|E]; [cbn [String.length]; lia|].
  rewrite Nat2Z.inj_succ, Z.pow_succ_r in Hn by lia.
  assert (Hq : 0 < n / 10 < 10 ^ Z.of_nat k).
  { split; [pose proof (Z.div_pos n 10); lia|].
    apply Z.div_lt_upper_bound; lia. }
  destruct k as [|k]; [cbn in Hq; lia|].
  specialize (IH k (n / 10) (String (digit_char (n mod 10)) acc)).
  cbn [String.length] in IH. lia.
Qed.

(** The digits denote the number, as long as the fuel covers them. *)
Lemma format_llu_loop_value (fuel : nat) :
  forall n acc, 0 <= n < 10 ^ Z.of_nat fuel ->
  decimal_value (format_llu_loop fuel n acc)
  = n * 10 ^ Z.of_nat (String.length acc) + decimal_value acc.
Proof.
  induction fuel as [|fuel IH]; intros n acc Hn.
  - cbn in Hn. cbn [format_llu_loop]. replace n with 0 by lia. lia.
  - cbn [format_llu_loop].
    pose proof (Z.mod_pos_bound n 10 eq_refl) as Hd.
    pose proof (Z.div_mod n 10 ltac:(lia)) as Hdm.
    destruct (Z.eqb_spec (n / 10) 0) as [E|E].
    + cbn [decimal_value].
      rewrite (proj2 (digit_char_spec _ Hd)). replace (n mod 10) with n by lia.
      reflexivity.
    + rewrite Nat2Z.inj_succ, Z.pow_succ_r in Hn by lia.
      rewrite IH.
      * cbn [decimal_value String.length].
        rewrite (proj2 (digit_char_spec _ Hd)).
        rewrite Nat2Z.inj_succ, Z.pow_succ_r by lia. nia.
      * split; [apply Z.div_pos; lia | apply Z.div_lt_upper_bound; lia].
Qed.

Lemma format_llu_spec (n : Z) :
  0 <= n < 2 ^ 64 ->
  strlen (format_llu n) = String.length (format_llu n)
  /\ decimal_value (format_llu n) = n.
Proof.
  intros Hn. unfold format_llu. split.
  - apply format_llu_loop_strlen. reflexivity.
  - rewrite format_llu_loop_value; [cbn; lia|].
    assert (2 ^ 64 < 10 ^ Z.of_nat 20) by (vm_compute; reflexivity). lia.
Qed.

Lemma format_llu_length (k : nat) (n : Z) :
  0 <= n < 10 ^ Z.of_nat (S k) -> (String.length (format_llu n) <= S k)%nat.
Proof.
  intros Hn. unfold format_llu.
  pose proof (format_llu_loop_length 20 k n EmptyString Hn) as H.
  cbn [String.length] in H. lia.
Qed.

(** The two buffers of [SVGBadgeFromSetupPayload] print the first four
    characters of the formatted code and the up-to-four that follow. *)
Lemma code_halves (d : string) :
  strlen d = String.length d -> (String.length d <= 8)%nat ->
  let codeString := snprintf (zeros 9) 9 d in
  c_str (strncpy (zeros 5) codeString 4) = substring 0 4 d
  /\ c_str (strncpy (zeros 5) (ptr_add codeString 4) 4) = substring 4 4 d.
Proof.
  intros H L.
  do 9 (destruct d as [|? d];
        [ split; buffers; reflexivity
        | cbn [strlen String.length] in H;
          match type of H with
          | (if Ascii.eqb ?c NUL then _ else _) = _ =>
              destruct (Ascii.eqb c NUL) eqn:?; [discriminate H|]
          end;
          apply eq_add_S in H ]).
  cbn [String.length] in L. lia.
Qed.

Lemma substring_halves (d : string) :
  (String.length d <= 8)%nat -> substring 0 4 d ++ substring 4 4 d = d.
Proof.
  intros L.
  do 9 (destruct d as [|? d]; [reflexivity|]).
  cbn [String.length] in L. lia.
Qed.

Lemma code_text_halves (code : Z) :
  0 <= code <= 99999999 ->
  code_text code
  = code_lines (substring 0 4 (format_llu code)) (substring 4 4 (format_llu code)).
Proof.
  intros Hc. unfold code_text, code_lines.
  assert (H64 : 99999999 < 2 ^ 64) by (vm_compute; reflexivity).
  destruct (format_llu_spec code ltac:(lia)) as [Hnul _].
  assert (Hlen : (String.length (format_llu code) <= 8)%nat)
    by (apply (format_llu_length 7); cbn; lia).
  destruct (code_halves (format_llu code) Hnul Hlen) as [E1 E2].
  cbv zeta in E1, E2. rewrite E1, E2. reflexivity.
Qed.

(** ** The decoder looks at the C string only *)

Lemma substring_0_0 (s : string) : substring 0 0 s = EmptyString.
Proof. destruct s; reflexivity. Qed.

Lemma c_str_strlen (p : string) : strlen (c_str p) = strlen p.
Proof.
  unfold c_str. induction p as [|c t IH]; [reflexivity|].
  cbn [strlen]. destruct (Ascii.eqb c NUL) eqn:E; [reflexivity|].
  cbn [substring strlen]. rewrite E, IH. reflexivity.
Qed.

Lemma codeFromSetupPayload_range (sgn : bool) (p : string) (code : Z) :
  codeFromSetupPayload sgn p = Some code -> 0 <= code <= 134217727.
Proof.
  unfold codeFromSetupPayload.
  destruct (is_setup_payload p).
  - destruct (base36ToLong sgn (setupCode_buffer p)) as [d|]; [|discriminate].
    intros E. injection E as <-. apply land_mask_range.
  - intros E. injection E as <-. lia.
Qed.

(** The validity test and the code are those of the characters before the
    terminator. *)
Lemma decoder_c_str (sgn : bool) (p : string) :
  is_setup_payload (c_str p) = is_setup_payload p
  /\ codeFromSetupPayload sgn (c_str p) = codeFromSetupPayload sgn p.
Proof.
  destruct (Nat.eq_dec (strlen p) 20) as [H|H].
  - assert (E : exists q, c_str p = substring 0 20 q /\ p = q) by
      (exists p; unfold c_str; now rewrite H).
    destruct E as (q & E1 & E2). rewrite E1. subst q. clear E1.
    do 20 peel H.
    unfold codeFromSetupPayload, is_setup_payload, setupCode_buffer.
    cbn [substring]. rewrite substring_0_0.
    repeat first
      [ progress cbn [strlen strncmp deref ptr_add copy_loop store zeros]
      | match goal with
        | E : Ascii.eqb ?c NUL = false |- context [Ascii.eqb ?c NUL] => rewrite E
        end ].
    rewrite H. split; reflexivity.
  - assert (E : is_setup_payload (c_str p) = false /\ is_setup_payload p = false).
    { unfold is_setup_payload. rewrite c_str_strlen.
      apply Nat.eqb_neq in H. rewrite H. split; reflexivity. }
    unfold codeFromSetupPayload. destruct E as [-> ->]. split; reflexivity.
Qed.

(** ** The renderer *)

Section RendererProperties.

Context {float : Type} `{FloatOps float}.
Variable sgn : bool.
Variable qrcode_initText : Z -> Z -> string -> QRCode.

Lemma SVGBadge_ignores (p : string) (connection : mg_connection) (log : console) :
  is_setup_payload p = false ->
  SVGBadgeFromSetupPayload sgn qrcode_initText p connection log = Some (connection, log).
Proof.
  intros E. unfold SVGBadgeFromSetupPayload. rewrite E. reflexivity.
Qed.

Lemma SVGBadge_undefined (p : string) (connection : mg_connection) (log : console) :
  is_setup_payload p = true -> codeFromSetupPayload sgn p = None ->
  SVGBadgeFromSetupPayload sgn qrcode_initText p connection log = None.
Proof.
  intros E Hc. unfold SVGBadgeFromSetupPayload. rewrite E, Hc. reflexivity.
Qed.

Lemma SVGBadge_over_range (p : string) (connection : mg_connection) (log : console)
      (code : Z) :
  is_setup_payload p = true -> codeFromSetupPayload sgn p = Some code ->
  99999999 < code ->
  SVGBadgeFromSetupPayload sgn qrcode_initText p connection log
  = Some (connection, LOG log over_range_message).
Proof.
  intros E Hc Hgt. unfold SVGBadgeFromSetupPayload. rewrite E, Hc.
  destruct (Z.gtb_spec code 99999999); [reflexivity | lia].
Qed.

Lemma SVGBadge_renders (p : string) (connection : mg_connection) (log : console)
      (code : Z) :
  is_setup_payload p = true -> codeFromSetupPayload sgn p = Some code ->
  code <= 99999999 ->
  SVGBadgeFromSetupPayload sgn qrcode_initText p connection log
  = Some (connection
            ++ badge_text (qrcode_initText 3 2 p)
                 (substring 0 4 (format_llu code)) (substring 4 4 (format_llu code)),
          log).
Proof.
  intros E Hc Hle. pose proof (codeFromSetupPayload_range sgn p code Hc) as Hr.
  unfold SVGBadgeFromSetupPayload. rewrite E, Hc.
  destruct (Z.gtb_spec code 99999999); [lia|].
  cbv zeta. rewrite qrcodeSVGPath_appends, code_text_halves by lia.
  unfold mg_printf, badge_text, badge_head, badge_tail, qr_path_element.
  rewrite !append_assoc. reflexivity.
Qed.

Lemma badge_text_not_empty (q : QRCode) (a b : string) : badge_text q a b <> EmptyString.
Proof.
  unfold badge_text, badge_head.
  assert (E : svg_xml_declaration
              = String "<" (substring 1 (String.length svg_xml_declaration)
                                       svg_xml_declaration)) by reflexivity.
  rewrite E. cbn [String.append]. discriminate.
Qed.

End RendererProperties.

(** ** The claims about the renderer *)

Section BadgeProperties.

Context {float : Type} `{FloatOps float}.
Variable sgn : bool.
Variable qrcode_initText : Z -> Z -> string -> QRCode.

(** C3: the claim wants the code formatted as eight digits, zero-padded on
    the left. The source formats with a bare [%llu]: for the well-formed
    payload ["X-HM://00520LWL5ABCD"] (category 5, IP flag, setup code
    00012345) the formatted text is ["12345"], not ["00012345"], and the
    badge carries the lines ["1234"] and ["5"] where the padded code would
    give ["0001"] and ["2345"]. *)
Theorem SVGBadge_code_not_zero_padded :
  well_formed_payload "X-HM://00520LWL5ABCD"
  /\ codeFromSetupPayload sgn "X-HM://00520LWL5ABCD" = Some 12345
  /\ format_llu 12345 = "12345"
  /\ c_str (snprintf (zeros 9) 9 (format_llu 12345)) = "12345"
  /\ forall connection log,
       SVGBadgeFromSetupPayload sgn qrcode_initText "X-HM://00520LWL5ABCD" connection log
       = Some (connection
                 ++ badge_text (qrcode_initText 3 2 "X-HM://00520LWL5ABCD")
                      "1234" "5",
               log).
Proof.
  assert (Hwf : well_formed_payload "X-HM://00520LWL5ABCD") by (split; reflexivity).
  assert (Hcode : codeFromSetupPayload sgn "X-HM://00520LWL5ABCD" = Some 12345)
    by (vm_compute; reflexivity).
  repeat split; try reflexivity; try exact Hcode.
  intros connection log.
  apply (SVGBadge_renders sgn qrcode_initText _ connection log 12345); try assumption.
  - apply well_formed_is_setup_payload. exact Hwf.
  - lia.
Qed.

(** C4: for a well-formed payload with the code in range, the badge carries
    two text lines: the first four characters of the formatted code and the
    up-to-four characters from offset 4. The two lines together are exactly
    the decimal digits of the code, with nothing added: when there are
    fewer than eight digits the second line is shorter than four
    characters. *)
Theorem SVGBadge_code_halves (payload : string) (connection : mg_connection)
        (log : console) (code : Z) :
  well_formed_payload payload ->
  codeFromSetupPayload sgn payload = Some code ->
  code <= 99999999 ->
  let codeString := format_llu code in
  let firstHalf := substring 0 4 codeString in
  let secondHalf := substring 4 4 codeString in
  SVGBadgeFromSetupPayload sgn qrcode_initText payload connection log
  = Some (connection ++ badge_head ++ code_lines firstHalf secondHalf
            ++ badge_tail (qrcode_initText 3 2 payload),
          log)
  /\ firstHalf ++ secondHalf = codeString
  /\ decimal_value codeString = code
  /\ ((String.length codeString < 8)%nat -> (String.length secondHalf < 4)%nat).
Proof.
  intros Hwf Hcode Hle codeString firstHalf secondHalf.
  pose proof (codeFromSetupPayload_range sgn payload code Hcode) as Hr.
  assert (H64 : 134217727 < 2 ^ 64) by (vm_compute; reflexivity).
  assert (Hlen : (String.length codeString <= 8)%nat)
    by (apply (format_llu_length 7); cbn; lia).
  split; [|split; [|split]].
  - apply well_formed_is_setup_payload in Hwf.
    rewrite (SVGBadge_renders sgn qrcode_initText payload connection log code Hwf Hcode Hle).
    reflexivity.
  - apply substring_halves. exact Hlen.
  - apply format_llu_spec. lia.
  - subst firstHalf secondHalf. clear Hlen. intros Hlt.
    do 8 (destruct codeString as [|? codeString]; [cbn; lia|]).
    cbn [String.length] in Hlt. lia.
Qed.

(** C6: on a string that is not 20 characters long or does not begin with
    ["X-HM://"], the renderer writes nothing to the connection (and nothing
    to the console). *)
Theorem SVGBadge_rejects_malformed (payload : string) (connection : mg_connection)
        (log : console) :
  strlen payload <> 20%nat \/ String.prefix "X-HM://" payload = false ->
  SVGBadgeFromSetupPayload sgn qrcode_initText payload connection log
  = Some (connection, log).
Proof.
  intros Hbad. apply SVGBadge_ignores.
  rewrite is_setup_payload_prefix.
  destruct Hbad as [Hlen|Hpre].
  - apply Nat.eqb_neq in Hlen. rewrite Hlen. reflexivity.
  - rewrite Hpre. apply andb_false_r.
Qed.

(** C7: for a well-formed payload, a code above 99999999 makes the renderer
    return with the connection as it was (only the console gets a line); a
    code of exactly 99999999 is rendered: the whole badge is appended to
    the connection, with the code lines ["9999"] and ["9999"] and the QR
    path of the payload, and what is written is not empty. *)
Theorem SVGBadge_over_range_boundary (payload : string) (connection : mg_connection)
        (log : console) (code : Z) :
  well_formed_payload payload ->
  codeFromSetupPayload sgn payload = Some code ->
  (99999999 < code ->
   SVGBadgeFromSetupPayload sgn qrcode_initText payload connection log
   = Some (connection, LOG log over_range_message))
  /\ (code = 99999999 ->
      SVGBadgeFromSetupPayload sgn qrcode_initText payload connection log
      = Some (connection
                ++ badge_text (qrcode_initText 3 2 payload) "9999" "9999",
              log)
      /\ badge_text (qrcode_initText 3 2 payload) "9999" "9999" <> EmptyString).
Proof.
  intros Hwf Hcode. apply well_formed_is_setup_payload in Hwf. split.
  - intros Hgt. now apply (SVGBadge_over_range sgn qrcode_initText _ _ _ code).
  - intros ->. split; [|apply badge_text_not_empty].
    rewrite (SVGBadge_renders sgn qrcode_initText payload connection log 99999999
               Hwf Hcode ltac:(lia)).
    reflexivity.
Qed.

(** C8: with a border of one module the scale is [width / (N + 2)], the
    origin is shifted by [border * scale] in both axes, and the path data
    is the concatenation of one closed square per on module: the on modules
    are exactly the cells of the matrix whose module is on, each once, in
    row-major order, and an off module contributes nothing. *)
Theorem qrcodeSVGPath_squares (connection : mg_connection) (q : QRCode)
        (x_offset y_offset width : float) :
  let N := size q in
  let scale := fdiv width (float_of_int (Z.of_nat N + 2)) in
  let originX := fadd x_offset (fmul (float_of_int 1) scale) in
  let originY := fadd y_offset (fmul (float_of_int 1) scale) in
  qrcodeSVGPath connection q x_offset y_offset width
  = connection ++ lit "<path d=`"
      ++ join (map (square_subpath N x_offset y_offset width) (on_modules q))
      ++ lit "`/>"
  /\ (forall x y,
        square_subpath N x_offset y_offset width (x, y)
        = "M" ++ printf_3f (fadd originX (fmul scale (float_of_int (Z.of_nat x))))
              ++ "," ++ printf_3f (fadd originY (fmul scale (float_of_int (Z.of_nat y))))
              ++ "h" ++ printf_3f scale ++ "v" ++ printf_3f scale
              ++ "h-" ++ printf_3f scale ++ "z")
  /\ (forall x y, In (x, y) (on_modules q)
                  <-> (x < N)%nat /\ (y < N)%nat /\ qrcode_getModule q x y = true)
  /\ StronglySorted before (on_modules q).
Proof.
  intros N scale originX originY.
  split; [apply qrcodeSVGPath_appends|].
  split; [intros x y; reflexivity|].
  apply on_modules_spec.
Qed.

(** C10: every code the decoder returns is at most [0x7FFFFFF]; it has at
    most nine decimal digits; and the renderer takes its over-range branch
    exactly on the well-formed payloads whose code lies strictly between
    99999999 and 134217728. The decoder does return a code whenever no
    character of the token lies below ['0']. *)
Theorem codeFromSetupPayload_bounded (payload : string) :
  (forall code, codeFromSetupPayload sgn payload = Some code ->
     0 <= code <= 134217727
     /\ (String.length (format_llu code) <= 9)%nat
     /\ forall connection log,
          SVGBadgeFromSetupPayload sgn qrcode_initText payload connection log
          = Some (connection, LOG log over_range_message)
          <-> well_formed_payload payload /\ 99999999 < code < 134217728)
  /\ (none_below_zero sgn (substring 7 9 payload) = true ->
      exists code, codeFromSetupPayload sgn payload = Some code).
Proof.
  split.
  - intros code Hcode.
    pose proof (codeFromSetupPayload_range sgn payload code Hcode) as Hr.
    split; [exact Hr|]. split; [apply (format_llu_length 8); cbn; lia|].
    intros connection log. rewrite well_formed_is_setup_payload.
    assert (Hlog : LOG log over_range_message <> log).
    { unfold LOG. intros E. apply (f_equal (@List.length string)) in E.
      rewrite length_app in E. cbn in E. lia. }
    split.
    + intros Hrun. destruct (is_setup_payload payload) eqn:Ev.
      * destruct (Z.le_gt_cases code 99999999) as [Hle|Hgt];
          [|split; [reflexivity | lia]].
        rewrite (SVGBadge_renders sgn qrcode_initText _ connection log code
                   Ev Hcode Hle) in Hrun.
        injection Hrun as _ E. symmetry in E. contradiction.
      * rewrite (SVGBadge_ignores sgn qrcode_initText _ connection log Ev) in Hrun.
        injection Hrun as E. symmetry in E. contradiction.
    + intros [Ev Hgt].
      apply (SVGBadge_over_range sgn qrcode_initText _ _ _ code); tauto || lia.
  - intros Htoken. destruct (is_setup_payload payload) eqn:Ev.
    + rewrite (codeFromSetupPayload_token sgn payload Ev).
      rewrite (base36ToLong_token sgn _ Htoken (substring_length_le payload 7 9)).
      eexists. reflexivity.
    + exists 0. unfold codeFromSetupPayload. rewrite Ev. reflexivity.
Qed.

End BadgeProperties.

(** ** Determinism *)

Section SameMatrix.

Context {float : Type} `{FloatOps float}.

Lemma badge_text_same_matrix (q1 q2 : QRCode) (a b : string) :
  same_matrix q1 q2 -> badge_text q1 a b = badge_text q2 a b.
Proof.
  intros Hsame. pose proof (same_matrix_on_modules q1 q2 Hsame) as Hon.
  destruct Hsame as [Hsize _].
  unfold badge_text, badge_tail, qr_path_element, qr_path_data.
  rewrite Hsize, Hon. reflexivity.
Qed.

(** C9: the code is a function of the payload's characters alone, and two
    calls of the renderer on the same payload with the same QR matrix
    append the same bytes to their connections (and the same lines to the
    console), whatever those held before. *)
Theorem decoder_and_renderer_deterministic (sgn : bool) :
  (forall p1 p2, c_str p1 = c_str p2 ->
                 codeFromSetupPayload sgn p1 = codeFromSetupPayload sgn p2)
  /\ (forall (init1 init2 : Z -> Z -> string -> QRCode) p1 p2
             connection1 connection2 log1 log2,
        c_str p1 = c_str p2 ->
        same_matrix (init1 3 2 p1) (init2 3 2 p2) ->
        exists outcome,
          SVGBadgeFromSetupPayload sgn init1 p1 connection1 log1
          = appended connection1 log1 outcome
          /\ SVGBadgeFromSetupPayload sgn init2 p2 connection2 log2
             = appended connection2 log2 outcome).
Proof.
  assert (Hdec : forall p1 p2, c_str p1 = c_str p2 ->
            is_setup_payload p1 = is_setup_payload p2
            /\ codeFromSetupPayload sgn p1 = codeFromSetupPayload sgn p2).
  { intros p1 p2 E.
    destruct (decoder_c_str sgn p1) as [<- <-].
    destruct (decoder_c_str sgn p2) as [<- <-].
    rewrite E. split; reflexivity. }
  split; [intros p1 p2 E; apply (Hdec p1 p2 E)|].
  intros init1 init2 p1 p2 connection1 connection2 log1 log2 E Hsame.
  destruct (Hdec p1 p2 E) as [Ev Ec].
  destruct (is_setup_payload p1) eqn:Ev1.
  - symmetry in Ev. destruct (codeFromSetupPayload sgn p1) as [code|] eqn:Ec1.
    + symmetry in Ec. destruct (Z.le_gt_cases code 99999999) as [Hle|Hgt].
      * exists (Some (badge_text (init1 3 2 p1)
                        (substring 0 4 (format_llu code))
                        (substring 4 4 (format_llu code)), [])).
        unfold appended. cbn [option_map fst snd]. rewrite !app_nil_r.
        rewrite (badge_text_same_matrix _ _ _ _ Hsame) at 2.
        split; apply SVGBadge_renders; assumption.
      * exists (Some (EmptyString, [over_range_message])).
        unfold appended. cbn [option_map fst snd]. rewrite !append_empty_r.
        split; apply (SVGBadge_over_range sgn _ _ _ _ code); assumption || lia.
    + symmetry in Ec. exists None.
      split; apply SVGBadge_undefined; assumption.
  - symmetry in Ev. exists (Some (EmptyString, [])).
    unfold appended. cbn [option_map fst snd]. rewrite !append_empty_r, !app_nil_r.
    split; apply SVGBadge_ignores; assumption.
Qed.

End SameMatrix.

(** ** Runs on concrete payloads *)

Lemma SVGBadge_code_halves_witness :
  SVGBadgeFromSetupPayload false sample_initText "X-HM://000000YZZABCD" "sent" []
  = Some ("sent" ++ badge_head
            ++ code_lines (substring 0 4 (format_llu 45359))
                          (substring 4 4 (format_llu 45359))
            ++ badge_tail (sample_initText 3 2 "X-HM://000000YZZABCD"),
          [])
  /\ substring 0 4 (format_llu 45359) ++ substring 4 4 (format_llu 45359)
     = format_llu 45359
  /\ decimal_value (format_llu 45359) = 45359
  /\ ((String.length (format_llu 45359) < 8)%nat ->
      (String.length (substring 4 4 (format_llu 45359)) < 4)%nat).
Proof.
  apply (SVGBadge_code_halves (float := Binary32.float) false sample_initText
           "X-HM://000000YZZABCD" "sent" [] 45359).
  - split; reflexivity.
  - vm_compute. reflexivity.
  - lia.
Defined.

Lemma SVGBadge_rejects_malformed_witness :
  SVGBadgeFromSetupPayload false sample_initText "X-HM://0000009IX" "sent" []
  = Some ("sent", []).
Proof.
  apply (SVGBadge_rejects_malformed (float := Binary32.float) false sample_initText
           "X-HM://0000009IX" "sent" []).
  left. vm_compute. discriminate.
Defined.

Lemma SVGBadge_over_range_boundary_witness :
  (99999999 < 99999999 ->
   SVGBadgeFromSetupPayload false sample_initText "X-HM://0001NJCHRABCD" "sent" []
   = Some ("sent", LOG [] over_range_message))
  /\ (99999999 = 99999999 ->
      SVGBadgeFromSetupPayload false sample_initText "X-HM://0001NJCHRABCD" "sent" []
      = Some ("sent"
                ++ badge_text (sample_initText 3 2 "X-HM://0001NJCHRABCD")
                     "9999" "9999",
              [])
      /\ badge_text (sample_initText 3 2 "X-HM://0001NJCHRABCD") "9999" "9999"
         <> EmptyString).
Proof.
  apply (SVGBadge_over_range_boundary (float := Binary32.float) false sample_initText
           "X-HM://0001NJCHRABCD" "sent" [] 99999999).
  - split; reflexivity.
  - vm_compute. reflexivity.
Defined.

Lemma codeFromSetupPayload_bounded_witness :
  0 <= 100000000 <= 134217727
  /\ (String.length (format_llu 100000000) <= 9)%nat
  /\ forall connection log,
       SVGBadgeFromSetupPayload false sample_initText "X-HM://0001NJCHSABCD" connection log
       = Some (connection, LOG log over_range_message)
       <-> well_formed_payload "X-HM://0001NJCHSABCD" /\ 99999999 < 100000000 < 134217728.
Proof.
  apply (proj1 (codeFromSetupPayload_bounded (float := Binary32.float) false
                  sample_initText "X-HM://0001NJCHSABCD") 100000000).
  vm_compute. reflexivity.
Defined.

Lemma decoder_and_renderer_deterministic_witness :
  exists outcome,
    SVGBadgeFromSetupPayload false sample_initText "X-HM://0001NJCHRABCD" "sent" []
    = appended "sent" [] outcome
    /\ SVGBadgeFromSetupPayload false sample_initText
         ("X-HM://0001NJCHRABCD" ++ String NUL "left over") "other" ["line"]
       = appended "other" ["line"] outcome.
Proof.
  apply (proj2 (decoder_and_renderer_deterministic (float := Binary32.float) false)
           sample_initText sample_initText).
  - reflexivity.
  - split; [reflexivity | intros x y _ _; reflexivity].
Defined.

(** The over-range branch on the first code above the limit. *)
Example SVGBadge_100000000_aborts :
  codeFromSetupPayload false "X-HM://0001NJCHSABCD" = Some 100000000
  /\ SVGBadgeFromSetupPayload false sample_initText "X-HM://0001NJCHSABCD" "sent" []
     = Some ("sent", [over_range_message]).
Proof.
  split; vm_compute; reflexivity.
Qed.

(** The path of a two-by-two matrix with the diagonal on, in a box of
    width 165 at (10, 74), in binary32. *)
Example qrcodeSVGPath_diagonal :
  qrcodeSVGPath (H := Binary32.ops) EmptyString
    (matrix_of_rows [[true; false]; [false; true]])
    (float_of_int 10) (float_of_int 74) (float_of_int 165)
  = lit ("<path d=`M51.250,115.250h41.250v41.250h-41.250z"
           ++ "M92.500,156.500h41.250v41.250h-41.250z`/>").
Proof.
  vm_compute. reflexivity.
Qed.

(** [Double] agrees with the Standard Library's binary64 on the sums the
    counterexamples go through. *)
Example accumulate_agrees_with_binary64 :
  accumulate 1 35 10 = accumulate_binary64 1 35 10
  /\ accumulate 1 35 10 = Some 127965545402204160
  /\ accumulate 0 35 12 = accumulate_binary64 0 35 12
  /\ accumulate 0 35 12 = None
  /\ accumulate 0 (-1) 0 = accumulate_binary64 0 (-1) 0
  /\ accumulate 36 35 9 = accumulate_binary64 36 35 9
  /\ accumulate (2 ^ 53) 1 0 = accumulate_binary64 (2 ^ 53) 1 0
  /\ accumulate (2 ^ 53 + 2) 1 0 = accumulate_binary64 (2 ^ 53 + 2) 1 0
  /\ accumulate (2 ^ 63) 35 11 = accumulate_binary64 (2 ^ 63) 35 11
  /\ accumulate 7 35 17 = accumulate_binary64 7 35 17.
Proof.
  repeat split; vm_compute; reflexivity.
Qed.

(** * Further properties *)

(** ** The decoder: distinct tokens, case and characters below ['0'] *)

Lemma base36_digit_inj (c1 c2 : ascii) :
  is_base36_digit c1 = true -> is_base36_digit c2 = true ->
  base36_digit c1 = base36_digit c2 -> c1 = c2.
Proof.
  intros H1 H2 E.
  destruct (base36_digit_range c1 H1) as [R1 _].
  destruct (base36_digit_range c2 H2) as [R2 _].
  apply uchar_inj. revert E. unfold base36_digit.
  change (uchar "0") with 48. change (uchar "9") with 57.
  change (uchar "A") with 65.
  destruct (Z.gtb_spec (uchar c1) 57); destruct (Z.gtb_spec (uchar c2) 57); lia.
Qed.

Lemma base36_value_inj (s1 : string) :
  forall s2, all_base36 s1 = true -> all_base36 s2 = true ->
  String.length s1 = String.length s2 ->
  base36_value s1 = base36_value s2 -> s1 = s2.
Proof.
  induction s1 as [|c1 t1 IH]; intros [|c2 t2] H1 H2 Hlen E;
    try discriminate Hlen; [reflexivity|].
  cbn [all_base36] in H1, H2.
  apply andb_true_iff in H1. apply andb_true_iff in H2.
  destruct H1 as [Hc1 Ht1]. destruct H2 as [Hc2 Ht2].
  injection Hlen as Hlen.
  cbn [base36_value] in E. rewrite <- Hlen in E.
  pose proof (base36_value_range t1 Ht1) as R1.
  pose proof (base36_value_range t2 Ht2) as R2. rewrite <- Hlen in R2.
  destruct (Z.div_mod_unique (36 ^ Z.of_nat (String.length t1))
              (base36_digit c1) (base36_digit c2)
              (base36_value t1) (base36_value t2)) as [Ed Ev];
    [left; exact R1 | left; exact R2 | lia |].
  f_equal; [apply base36_digit_inj; assumption | apply IH; assumption].
Qed.

Lemma all_base36_strlen (s : string) :
  all_base36 s = true -> strlen s = String.length s.
Proof.
  intros Hs. apply (none_below_zero_strlen false).
  apply all_base36_positional. exact Hs.
Qed.

(** X1: two different strings of base-36 digits of one length (at most
    ten) never decode to the same number. *)
Theorem base36ToLong_injective (sgn : bool) (s1 s2 : string) :
  all_base36 s1 = true -> all_base36 s2 = true ->
  String.length s1 = String.length s2 -> (String.length s1 <= 10)%nat ->
  s1 <> s2 ->
  base36ToLong sgn s1 <> base36ToLong sgn s2.
Proof.
  intros H1 H2 Hlen Hle Hne E. apply Hne.
  rewrite (base36ToLong_digits sgn s1 H1 Hle) in E.
  rewrite (base36ToLong_digits sgn s2 H2) in E by lia.
  injection E as E. now apply base36_value_inj.
Qed.

Lemma base36ToLong_injective_witness :
  base36ToLong false "0032SP5MT" <> base36ToLong false "0032SP5MU".
Proof.
  apply (base36ToLong_injective false "0032SP5MT" "0032SP5MU");
    try reflexivity; [cbn; lia | discriminate].
Defined.

Lemma char_at_ptr_add (s : string) (a : nat) :
  forall l, char_at (ptr_add s a) l = char_at s (a + l).
Proof.
  revert s. induction a as [|a IH]; intros s l; [reflexivity|].
  destruct s as [|c t].
  - unfold char_at. cbn [ptr_add Nat.add]. destruct l; reflexivity.
  - cbn [ptr_add Nat.add]. rewrite IH. reflexivity.
Qed.

(** The loop over the last [len] characters, then over the first [a]. *)
Lemma base36ToLong_loop_split (sgn : bool) (s : string) (a : nat) :
  forall len i result,
  base36ToLong_loop sgn s (a + len) i result
  = match base36ToLong_loop sgn (ptr_add s a) len i result with
    | Some result' => base36ToLong_loop sgn s a (i + len) result'
    | None => None
    end.
Proof.
  induction len as [|len IH]; intros i result.
  - rewrite !Nat.add_0_r. reflexivity.
  - rewrite Nat.add_succ_r. cbn [base36ToLong_loop].
    rewrite char_at_ptr_add.
    destruct (accumulate result (digit_value sgn (char_at s (a + len))) i);
      [|reflexivity].
    rewrite IH. rewrite Nat.add_succ_r. reflexivity.
Qed.

Lemma strlen_append (a b : string) :
  strlen a = String.length a -> strlen (a ++ b) = (String.length a + strlen b)%nat.
Proof.
  induction a as [|c a IH]; intros Ha; [reflexivity|].
  cbn [strlen String.length String.append] in *.
  destruct (Ascii.eqb c NUL); [discriminate|].
  injection Ha as Ha. now rewrite IH.
Qed.

Lemma ptr_add_append (a b : string) : ptr_add (a ++ b) (String.length a) = b.
Proof.
  induction a as [|c a IH]; [reflexivity | exact IH].
Qed.

(** A negative digit on top of a sum below its weight gives a negative
    [double], which has no conversion to [uint64_t]. *)
Lemma accumulate_negative (result value : Z) (i : nat) :
  0 <= result < 36 ^ Z.of_nat i -> (i <= 8)%nat -> -176 <= value <= -1 ->
  accumulate result value i = None.
Proof.
  intros Hr Hi Hv.
  assert (H36 : 36 ^ Z.of_nat i <= 36 ^ 8) by (apply Z.pow_le_mono_r; lia).
  assert (Hc : 176 * 36 ^ 8 < 2 ^ 53) by (vm_compute; reflexivity).
  assert (Hm : - (176 * 36 ^ 8) <= value * 36 ^ Z.of_nat i <= - 36 ^ Z.of_nat i) by nia.
  unfold accumulate, Double.pow.
  rewrite (of_Z_small result), (of_Z_small value), (of_Z_small (36 ^ Z.of_nat i)) by lia.
  cbn [Double.mul]. rewrite of_Z_small by lia.
  cbn [Double.add]. rewrite of_Z_small by lia.
  cbn [Double.to_uint64].
  destruct (Z.leb_spec 0 (result + value * 36 ^ Z.of_nat i)); [lia | reflexivity].
Qed.

Lemma digit_value_below_zero (sgn : bool) (c : ascii) :
  char_value sgn c < 48 -> -176 <= digit_value sgn c <= -1.
Proof.
  intros Hc. pose proof (uchar_range c) as Hu.
  assert (Hv : -128 <= char_value sgn c).
  { unfold char_value.
    destruct (Z.leb_spec 128 (uchar c)); destruct sgn; cbn [andb]; lia. }
  unfold digit_value. destruct (Z.gtb_spec (char_value sgn c) 57); lia.
Qed.

Lemma base36ToLong_below_zero (sgn : bool) (pre : string) (c : ascii) (digits : string) :
  strlen pre = String.length pre ->
  Ascii.eqb c NUL = false -> char_value sgn c < 48 ->
  all_base36 digits = true -> (String.length digits <= 8)%nat ->
  base36ToLong sgn (pre ++ String c digits) = None.
Proof.
  intros Hpre Hnul Hc Hd Hlen.
  unfold base36ToLong.
  rewrite (strlen_append pre _ Hpre). cbn [strlen]. rewrite Hnul.
  rewrite (all_base36_strlen digits Hd).
  replace (String.length pre + S (String.length digits))%nat
    with (S (String.length pre) + String.length digits)%nat by lia.
  rewrite base36ToLong_loop_split.
  replace (ptr_add (pre ++ String c digits) (S (String.length pre))) with digits.
  2:{ change (S (String.length pre)) with (String.length (String c pre)).
      clear. induction pre as [|x pre IH]; [reflexivity | exact IH]. }
  pose proof (base36ToLong_digits sgn digits Hd ltac:(lia)) as E.
  unfold base36ToLong in E. rewrite (all_base36_strlen digits Hd) in E.
  rewrite E. cbn [base36ToLong_loop Nat.add].
  replace (char_at (pre ++ String c digits) (String.length pre)) with c
    by (unfold char_at; now rewrite ptr_add_append).
  rewrite accumulate_negative; [reflexivity | | exact Hlen |].
  - apply base36_value_range. exact Hd.
  - apply digit_value_below_zero. exact Hc.
Qed.

Lemma length_append (a b : string) :
  String.length (a ++ b) = (String.length a + String.length b)%nat.
Proof.
  induction a as [|c a IH]; cbn [String.append String.length Nat.add];
    [reflexivity | now rewrite IH].
Qed.

(** A string without NUL has parts without NUL. *)
Lemma strlen_append_parts (a b : string) :
  strlen (a ++ b) = String.length (a ++ b) ->
  strlen a = String.length a /\ strlen b = String.length b.
Proof.
  induction a as [|c a IH]; intros E; [split; [reflexivity | exact E]|].
  cbn [strlen String.length String.append] in *.
  destruct (Ascii.eqb c NUL); [discriminate|].
  injection E as E. destruct (IH E) as [Ha Hb]. split; [now rewrite Ha | exact Hb].
Qed.

(** The nine characters after the prefix of a 20-character string: nine
    characters, none of them NUL. *)
Lemma token_of_payload (p : string) :
  strlen p = 20%nat ->
  strlen (substring 7 9 p) = 9%nat /\ String.length (substring 7 9 p) = 9%nat.
Proof.
  intros H. do 20 peel H.
  cbn [substring]. rewrite ?substring_0_0. cbn [strlen String.length].
  repeat match goal with E : Ascii.eqb _ NUL = false |- _ => rewrite ?E; clear E end.
  split; reflexivity.
Qed.

Section TokenProperties.

Context {float : Type} `{FloatOps float}.
Variable sgn : bool.
Variable qrcode_initText : Z -> Z -> string -> QRCode.

(** X2: the token is not validated. When a well-formed payload has, in its
    token, a character below ['0'] (such as ['/'], ['-'] or a space)
    followed only by base-36 digits, the sum [base36ToLong] forms is
    negative and its conversion to [uint64_t] is undefined: neither the
    code nor the badge is defined. *)
Theorem token_below_zero_undefined (payload pre : string) (c : ascii) (digits : string)
        (connection : mg_connection) (log : console) :
  well_formed_payload payload ->
  substring 7 9 payload = pre ++ String c digits ->
  char_value sgn c < 48 ->
  all_base36 digits = true ->
  base36ToLong sgn (pre ++ String c digits) = None
  /\ codeFromSetupPayload sgn payload = None
  /\ SVGBadgeFromSetupPayload sgn qrcode_initText payload connection log = None.
Proof.
  intros Hwf Htok Hc Hd.
  destruct (token_of_payload payload (proj1 Hwf)) as [Hs Hl].
  rewrite Htok in Hs, Hl.
  destruct (strlen_append_parts pre (String c digits)) as [Hpre Hrest]; [congruence|].
  assert (Hnul : Ascii.eqb c NUL = false).
  { cbn [strlen String.length] in Hrest.
    destruct (Ascii.eqb c NUL); [discriminate | reflexivity]. }
  rewrite length_append in Hl. cbn [String.length] in Hl.
  assert (Hnone : base36ToLong sgn (pre ++ String c digits) = None)
    by (apply base36ToLong_below_zero; try assumption; lia).
  apply well_formed_is_setup_payload in Hwf.
  assert (Hcode : codeFromSetupPayload sgn payload = None)
    by (rewrite (codeFromSetupPayload_token sgn payload Hwf), Htok, Hnone; reflexivity).
  split; [exact Hnone|]. split; [exact Hcode|].
  apply SVGBadge_undefined; assumption.
Qed.

End TokenProperties.

Lemma token_below_zero_undefined_witness :
  base36ToLong false ("0032SP5" ++ String "/" "T") = None
  /\ codeFromSetupPayload false "X-HM://0032SP5/TABCD" = None
  /\ SVGBadgeFromSetupPayload false sample_initText "X-HM://0032SP5/TABCD" "sent" [] = None.
Proof.
  apply (token_below_zero_undefined (float := Binary32.float) false sample_initText
           "X-HM://0032SP5/TABCD" "0032SP5" "/" "T" "sent" []).
  - split; reflexivity.
  - reflexivity.
  - vm_compute. reflexivity.
  - reflexivity.
Defined.

(** X3: the code of a well-formed payload is decided by its token alone,
    not by the four characters after it, and, for tokens of base-36
    digits, by the token's value modulo [2^27]: two payloads have the same
    code exactly when their token values agree in the low 27 bits. *)
Theorem code_is_token_value_modulo (sgn : bool) (p1 p2 : string) :
  well_formed_payload p1 -> well_formed_payload p2 ->
  (substring 7 9 p1 = substring 7 9 p2 ->
   codeFromSetupPayload sgn p1 = codeFromSetupPayload sgn p2)
  /\ (all_base36 (substring 7 9 p1) = true -> all_base36 (substring 7 9 p2) = true ->
      (codeFromSetupPayload sgn p1 = codeFromSetupPayload sgn p2
       <-> base36_value (substring 7 9 p1) mod 2 ^ 27
           = base36_value (substring 7 9 p2) mod 2 ^ 27)).
Proof.
  intros H1 H2.
  pose proof (substring_length_le p1 7 9) as L1.
  pose proof (substring_length_le p2 7 9) as L2.
  apply well_formed_is_setup_payload in H1, H2.
  rewrite (codeFromSetupPayload_token sgn p1 H1), (codeFromSetupPayload_token sgn p2 H2).
  split; [intros ->; reflexivity|].
  intros D1 D2.
  rewrite (base36ToLong_digits sgn _ D1), (base36ToLong_digits sgn _ D2) by lia.
  cbn [option_map]. change 134217727 with (Z.ones 27).
  rewrite !Z.land_ones by lia.
  split; [intros E; injection E as E; exact E | intros ->; reflexivity].
Qed.

Lemma code_is_token_value_modulo_witness :
  (substring 7 9 "X-HM://00520LWL5ABCD" = substring 7 9 "X-HM://0000009IXWXYZ" ->
   codeFromSetupPayload false "X-HM://00520LWL5ABCD"
   = codeFromSetupPayload false "X-HM://0000009IXWXYZ")
  /\ (all_base36 (substring 7 9 "X-HM://00520LWL5ABCD") = true ->
      all_base36 (substring 7 9 "X-HM://0000009IXWXYZ") = true ->
      (codeFromSetupPayload false "X-HM://00520LWL5ABCD"
       = codeFromSetupPayload false "X-HM://0000009IXWXYZ"
       <-> base36_value (substring 7 9 "X-HM://00520LWL5ABCD") mod 2 ^ 27
           = base36_value (substring 7 9 "X-HM://0000009IXWXYZ") mod 2 ^ 27)).
Proof.
  apply (code_is_token_value_modulo false
           "X-HM://00520LWL5ABCD" "X-HM://0000009IXWXYZ");
    split; reflexivity.
Defined.

(** ** The code buffer and the range check *)

Lemma digit_char_decimal (d : Z) :
  0 <= d < 10 -> 48 <= uchar (digit_char d) <= 57.
Proof.
  intros Hd. destruct (digit_char_spec d Hd) as [_ E]. lia.
Qed.

Lemma format_llu_loop_decimal (fuel : nat) :
  forall n acc, all_decimal acc = true ->
  all_decimal (format_llu_loop fuel n acc) = true.
Proof.
  induction fuel as [|fuel IH]; intros n acc Hacc; [exact Hacc|].
  cbn [format_llu_loop].
  assert (Hacc' : all_decimal (String (digit_char (n mod 10)) acc) = true).
  { cbn [all_decimal].
    pose proof (digit_char_decimal (n mod 10) (Z.mod_pos_bound n 10 eq_refl)) as Hd.
    rewrite Hacc, andb_true_r. apply andb_true_iff.
    split; apply Z.leb_le; lia. }
  destruct (n / 10 =? 0); [exact Hacc' | apply IH; exact Hacc'].
Qed.

Lemma decimal_value_range (s : string) :
  all_decimal s = true -> 0 <= decimal_value s < 10 ^ Z.of_nat (String.length s).
Proof.
  induction s as [|c t IH]; intros Hs.
  - cbn. lia.
  - cbn [all_decimal] in Hs. apply andb_true_iff in Hs. destruct Hs as [Hc Ht].
    apply andb_true_iff in Hc. destruct Hc as [Hl Hu].
    apply Z.leb_le in Hl. apply Z.leb_le in Hu. specialize (IH Ht).
    cbn [decimal_value String.length].
    rewrite Nat2Z.inj_succ, Z.pow_succ_r by lia. nia.
Qed.

(** The number of digits printed: at most [k] exactly for the numbers
    below [10^k]. *)
Lemma format_llu_length_iff (k : nat) (n : Z) :
  0 <= n < 2 ^ 64 -> (1 <= k)%nat ->
  ((String.length (format_llu n) <= k)%nat <-> n < 10 ^ Z.of_nat k).
Proof.
  intros Hn Hk. split.
  - intros Hlen.
    destruct (format_llu_spec n Hn) as [_ Hv].
    pose proof (decimal_value_range (format_llu n)
                  (format_llu_loop_decimal 20 n EmptyString eq_refl)) as Hr.
    rewrite Hv in Hr.
    assert (10 ^ Z.of_nat (String.length (format_llu n)) <= 10 ^ Z.of_nat k)
      by (apply Z.pow_le_mono_r; lia).
    lia.
  - intros Hlt. destruct k as [|k]; [lia|].
    apply format_llu_length. lia.
Qed.

Lemma store_append (pre : string) (b : ascii) (rest : string) (c : ascii) :
  store (pre ++ String b rest) (String.length pre) c = pre ++ String c rest.
Proof.
  induction pre as [|x pre IH]; cbn [String.append String.length store];
    [reflexivity | now rewrite IH].
Qed.

(** Bytes stored into a zeroed buffer that has room for them. *)
Lemma store_bytes_zeros (bytes : string) :
  forall pre n, (String.length bytes <= n)%nat ->
  store_bytes (pre ++ zeros n) (String.length pre) bytes
  = pre ++ bytes ++ zeros (n - String.length bytes).
Proof.
  induction bytes as [|c bytes IH]; intros pre n Hn.
  - cbn [store_bytes String.length String.append]. now rewrite Nat.sub_0_r.
  - destruct n as [|n]; [cbn in Hn; lia|].
    cbn [store_bytes zeros String.length Nat.sub].
    rewrite store_append.
    replace (pre ++ String c (zeros n)) with ((pre ++ String c EmptyString) ++ zeros n)
      by (rewrite append_assoc; reflexivity).
    replace (S (String.length pre)) with (String.length (pre ++ String c EmptyString))
      by (rewrite length_append; cbn; lia).
    rewrite IH by (cbn in Hn; lia).
    rewrite append_assoc. reflexivity.
Qed.

Lemma c_str_length (p : string) : String.length (c_str p) = strlen p.
Proof.
  unfold c_str. induction p as [|c t IH]; [reflexivity|].
  cbn [strlen]. destruct (Ascii.eqb c NUL); [reflexivity|].
  cbn [substring String.length]. now rewrite IH.
Qed.

Lemma strlen_append_NUL (a b : string) :
  (strlen (a ++ String NUL b) <= String.length a)%nat.
Proof.
  induction a as [|c a IH]; cbn [String.append strlen String.length].
  - reflexivity.
  - destruct (Ascii.eqb c NUL); lia.
Qed.

Lemma c_str_append_NUL (a b : string) :
  strlen a = String.length a -> c_str (a ++ String NUL b) = a.
Proof.
  unfold c_str. induction a as [|c a IH]; intros Ha.
  - reflexivity.
  - cbn [strlen String.length String.append] in *.
    destruct (Ascii.eqb c NUL); [discriminate|].
    injection Ha as Ha. cbn [substring]. now rewrite IH.
Qed.

Lemma substring_whole (s : string) :
  forall m, (String.length s <= m)%nat -> substring 0 m s = s.
Proof.
  induction s as [|c t IH]; intros [|m] Hm; cbn [substring String.length] in *;
    try reflexivity; try lia.
  rewrite IH by lia. reflexivity.
Qed.

(** What [snprintf] leaves in the zeroed nine-byte buffer. *)
Lemma snprintf_codeString (text : string) :
  snprintf (zeros 9) 9 text
  = substring 0 8 text
      ++ String NUL (zeros (8 - String.length (substring 0 8 text))).
Proof.
  unfold snprintf.
  pose proof (substring_length_le text 0 8) as Hl.
  pose proof (store_bytes_zeros (substring 0 8 text ++ String NUL EmptyString)
                EmptyString 9) as E.
  cbn [String.append String.length] in E. rewrite E.
  - rewrite append_assoc, length_append. cbn [String.append String.length].
    replace (9 - (String.length (substring 0 8 text) + 1))%nat
      with (8 - String.length (substring 0 8 text))%nat by lia.
    reflexivity.
  - rewrite length_append. cbn [String.length]. lia.
Qed.

(** X4: the buffer [codeString] of nine bytes holds every digit of the code
    exactly when the code is at most 99999999: the range check of the
    renderer is the condition under which [snprintf] does not cut the
    number. *)
Theorem codeString_complete_iff_in_range (code : Z) :
  0 <= code < 2 ^ 64 ->
  c_str (snprintf (zeros 9) 9 (format_llu code)) = format_llu code
  <-> code <= 99999999.
Proof.
  intros Hc. rewrite snprintf_codeString.
  pose proof (format_llu_length_iff 8 code Hc ltac:(lia)) as Hiff.
  change (10 ^ Z.of_nat 8) with 100000000 in Hiff.
  destruct (format_llu_spec code Hc) as [Hnul _].
  split.
  - intros E. apply (f_equal String.length) in E.
    rewrite c_str_length in E.
    pose proof (strlen_append_NUL (substring 0 8 (format_llu code))
                  (zeros (8 - String.length (substring 0 8 (format_llu code))))) as Hs.
    pose proof (substring_length_le (format_llu code) 0 8) as Hl.
    assert (String.length (format_llu code) <= 8)%nat by lia.
    apply Hiff in H. lia.
  - intros Hle.
    assert (Hlen : (String.length (format_llu code) <= 8)%nat) by (apply Hiff; lia).
    rewrite (substring_whole _ 8 Hlen).
    apply c_str_append_NUL. exact Hnul.
Qed.

Lemma codeString_complete_iff_in_range_witness :
  c_str (snprintf (zeros 9) 9 (format_llu 134217727)) = format_llu 134217727
  <-> 134217727 <= 99999999.
Proof.
  apply (codeString_complete_iff_in_range 134217727).
  split; [lia | vm_compute; reflexivity].
Defined.

Lemma halves_lengths (d : string) :
  (String.length d <= 8)%nat ->
  (String.length (substring 0 4 d) = 4%nat /\ String.length (substring 4 4 d) = 4%nat)
  <-> String.length d = 8%nat.
Proof.
  intros L.
  do 9 (destruct d as [|? d]; [cbn; lia|]).
  cbn [String.length] in L. lia.
Qed.

Section BadgeLines.

Context {float : Type} `{FloatOps float}.
Variable sgn : bool.
Variable qrcode_initText : Z -> Z -> string -> QRCode.

(** X5: the badge shows the code as two lines of four digits exactly when
    the code is at least 10000000. For every smaller code of a well-formed
    payload the lines are shorter, since the digits are printed without
    leading zeros. *)
Theorem badge_lines_four_digits_iff (payload : string) (connection : mg_connection)
        (log : console) (code : Z) :
  well_formed_payload payload ->
  codeFromSetupPayload sgn payload = Some code ->
  code <= 99999999 ->
  exists firstHalf secondHalf,
    SVGBadgeFromSetupPayload sgn qrcode_initText payload connection log
    = Some (connection ++ badge_text (qrcode_initText 3 2 payload) firstHalf secondHalf,
            log)
    /\ firstHalf ++ secondHalf = format_llu code
    /\ ((String.length firstHalf = 4%nat /\ String.length secondHalf = 4%nat)
        <-> 10000000 <= code).
Proof.
  intros Hwf Hcode Hle.
  pose proof (codeFromSetupPayload_range sgn payload code Hcode) as Hr.
  assert (H64 : 0 <= code < 2 ^ 64).
  { assert (134217727 < 2 ^ 64) by (vm_compute; reflexivity). lia. }
  pose proof (format_llu_length_iff 8 code H64 ltac:(lia)) as H8.
  pose proof (format_llu_length_iff 7 code H64 ltac:(lia)) as H7.
  change (10 ^ Z.of_nat 8) with 100000000 in H8.
  change (10 ^ Z.of_nat 7) with 10000000 in H7.
  assert (Hlen : (String.length (format_llu code) <= 8)%nat) by (apply H8; lia).
  exists (substring 0 4 (format_llu code)), (substring 4 4 (format_llu code)).
  split; [|split].
  - apply SVGBadge_renders; [apply well_formed_is_setup_payload| |]; assumption.
  - apply substring_halves. exact Hlen.
  - rewrite (halves_lengths _ Hlen). split; intros Hx; [|lia].
    destruct (Z.lt_ge_cases code 10000000) as [Hlt|Hge]; [|exact Hge].
    apply H7 in Hlt. lia.
Qed.

End BadgeLines.

Lemma badge_lines_four_digits_iff_witness :
  exists firstHalf secondHalf,
    SVGBadgeFromSetupPayload false sample_initText "X-HM://0001NJCHRABCD" "sent" []
    = Some ("sent"
              ++ badge_text (sample_initText 3 2 "X-HM://0001NJCHRABCD")
                   firstHalf secondHalf,
            [])
    /\ firstHalf ++ secondHalf = format_llu 99999999
    /\ ((String.length firstHalf = 4%nat /\ String.length secondHalf = 4%nat)
        <-> 10000000 <= 99999999).
Proof.
  apply (badge_lines_four_digits_iff (float := Binary32.float) false sample_initText
           "X-HM://0001NJCHRABCD" "sent" [] 99999999).
  - split; reflexivity.
  - vm_compute. reflexivity.
  - lia.
Defined.

(** ** The QR path: empty matrices, cells outside, and the box *)

Lemma append_inv_head (a b c : string) : a ++ b = a ++ c -> b = c.
Proof.
  induction a as [|x a IH]; cbn [String.append]; intros E;
    [exact E | injection E; auto].
Qed.

Lemma append_self_empty (a b : string) : a ++ b = b -> a = EmptyString.
Proof.
  intros E. apply (f_equal String.length) in E. rewrite length_append in E.
  destruct a; [reflexivity | cbn in E; lia].
Qed.

Section PathEdges.

Context {float : Type} `{FloatOps float}.

(** X6: the path element has empty path data exactly when no module of
    the matrix is on; in particular for a matrix of size 0. *)
Theorem qrcodeSVGPath_empty_iff (connection : mg_connection) (q : QRCode)
        (x_offset y_offset width : float) :
  qrcodeSVGPath connection q x_offset y_offset width
  = connection ++ lit "<path d=`" ++ lit "`/>"
  <-> forall x y, (x < size q)%nat -> (y < size q)%nat ->
                  qrcode_getModule q x y = false.
Proof.
  rewrite qrcodeSVGPath_appends. unfold qr_path_data.
  destruct (on_modules_spec q) as [Hin _].
  split.
  - intros E x y Hx Hy.
    apply append_inv_head in E. apply append_inv_head in E.
    apply append_self_empty in E.
    destruct (on_modules q) as [|[x0 y0] rest] eqn:Eon.
    + destruct (qrcode_getModule q x y) eqn:Em; [|reflexivity].
      assert (Hc : In (x, y) []) by (apply Hin; tauto). destruct Hc.
    + cbn [map join] in E. unfold square_subpath in E at 1.
      cbn [String.append] in E. discriminate E.
  - intros Hoff.
    assert (Eon : on_modules q = []).
    { destruct (on_modules q) as [|[x0 y0] rest] eqn:Eon; [reflexivity|].
      assert (Hc : In (x0, y0) ((x0, y0) :: rest)) by now left.
      apply Hin in Hc. destruct Hc as (Hx & Hy & Hm).
      rewrite (Hoff x0 y0 Hx Hy) in Hm. discriminate. }
    rewrite Eon. reflexivity.
Qed.

(** X7: [qrcode_getModule] is asked about the cells of the matrix only:
    two matrices of the same size that agree on those cells give the same
    path, whatever they answer elsewhere. *)
Theorem qrcodeSVGPath_same_matrix (connection : mg_connection) (q1 q2 : QRCode)
        (x_offset y_offset width : float) :
  same_matrix q1 q2 ->
  qrcodeSVGPath connection q1 x_offset y_offset width
  = qrcodeSVGPath connection q2 x_offset y_offset width.
Proof.
  intros Hsame. rewrite !qrcodeSVGPath_appends. unfold qr_path_data.
  rewrite (same_matrix_on_modules q1 q2 Hsame).
  destruct Hsame as [-> _]. reflexivity.
Qed.

End PathEdges.

Lemma qrcodeSVGPath_same_matrix_witness :
  qrcodeSVGPath (H := Binary32.ops) "sent"
    (matrix_of_rows [[true; false]; [false; true]])
    (float_of_int 10) (float_of_int 74) (float_of_int 165)
  = qrcodeSVGPath (H := Binary32.ops) "sent"
      (matrix_of_rows [[true; false; true]; [false; true; true]])
      (float_of_int 10) (float_of_int 74) (float_of_int 165).
Proof.
  apply (qrcodeSVGPath_same_matrix (H := Binary32.ops)).
  split; [reflexivity|].
  intros x y Hx Hy. cbn in Hx, Hy.
  destruct x as [|[|x]]; destruct y as [|[|y]]; try lia; reflexivity.
Defined.

(** Every square of every matrix a [uint8_t] size allows, by evaluation. *)
Lemma squares_inside_box_checked : forallb squares_inside_box (seq 0 256) = true.
Proof.
  vm_compute. reflexivity.
Qed.

(** X8: in binary32, with the box the badge uses (width 165 at (10, 74)),
    every square the path prints lies inside the white backdrop
    ([x] from 10 to 175, [y] from 74 to 239), for every matrix size a
    [uint8_t] holds: the printed corner is not before the box and the
    printed corner plus the printed side is not past it. *)
Theorem squares_inside_backdrop (n x y : nat) :
  (n <= 255)%nat -> (x < n)%nat -> (y < n)%nat ->
  let width : Binary32.float := float_of_int 165 in
  let scale := qr_scale n width in
  let px := fadd (qr_origin n (float_of_int 10) width)
                 (fmul scale (float_of_int (Z.of_nat x))) in
  let py := fadd (qr_origin n (float_of_int 74) width)
                 (fmul scale (float_of_int (Z.of_nat y))) in
  exists s X Y,
    printed_thousandths scale = Some s
    /\ printed_thousandths px = Some X
    /\ printed_thousandths py = Some Y
    /\ 10000 <= X /\ X + s <= 175000
    /\ 74000 <= Y /\ Y + s <= 239000.
Proof.
  intros Hn Hx Hy. cbv zeta.
  pose proof squares_inside_box_checked as Hall.
  rewrite forallb_forall in Hall.
  specialize (Hall n ltac:(apply in_seq; lia)).
  unfold squares_inside_box in Hall. cbv zeta in Hall.
  set (scale := qr_scale n (float_of_int 165)) in *.
  destruct (printed_thousandths scale) as [s|] eqn:Es; [|discriminate Hall].
  rewrite forallb_forall in Hall.
  pose proof (Hall x ltac:(apply in_seq; lia)) as Hbx.
  pose proof (Hall y ltac:(apply in_seq; lia)) as Hby.
  cbv beta in Hbx, Hby. clear Hall.
  set (px := fadd (qr_origin n (float_of_int 10) (float_of_int 165))
                  (fmul scale (float_of_int (Z.of_nat x)))) in *.
  set (py := fadd (qr_origin n (float_of_int 74) (float_of_int 165))
                  (fmul scale (float_of_int (Z.of_nat y)))) in *.
  destruct (printed_thousandths px) as [X|] eqn:EX; [|discriminate Hbx].
  destruct (printed_thousandths
              (fadd (qr_origin n (float_of_int 74) (float_of_int 165))
                    (fmul scale (float_of_int (Z.of_nat x)))));
    [|discriminate Hbx].
  destruct (printed_thousandths
              (fadd (qr_origin n (float_of_int 10) (float_of_int 165))
                    (fmul scale (float_of_int (Z.of_nat y)))));
    [|discriminate Hby].
  destruct (printed_thousandths py) as [Y|] eqn:EY; [|discriminate Hby].
  repeat (apply andb_true_iff in Hbx; destruct Hbx as [Hbx ?]).
  repeat (apply andb_true_iff in Hby; destruct Hby as [Hby ?]).
  repeat match goal with E : (_ <=? _) = true |- _ => apply Z.leb_le in E end.
  exists s, X, Y. repeat split; lia.
Qed.

Lemma squares_inside_backdrop_witness :
  let width : Binary32.float := float_of_int 165 in
  let scale := qr_scale 29 width in
  let px := fadd (qr_origin 29 (float_of_int 10) width)
                 (fmul scale (float_of_int (Z.of_nat 28))) in
  let py := fadd (qr_origin 29 (float_of_int 74) width)
                 (fmul scale (float_of_int (Z.of_nat 0))) in
  exists s X Y,
    printed_thousandths scale = Some s
    /\ printed_thousandths px = Some X
    /\ printed_thousandths py = Some Y
    /\ 10000 <= X /\ X + s <= 175000
    /\ 74000 <= Y /\ Y + s <= 239000.
Proof.
  apply (squares_inside_backdrop 29 28 0); lia.
Defined.

(** ** The timer *)

Lemma timer_runs_alternates (readings : list sys_reading) :
  forall s log,
  exists lines,
    timer_runs readings s log
    = (xorb s (Nat.odd (List.length readings)), (log ++ lines)%list)
    /\ List.length lines = List.length readings
    /\ forall k r, nth_error readings k = Some r ->
                   nth_error lines k = Some (timer_line (xorb s (Nat.odd k)) r).
Proof.
  induction readings as [|r rest IH]; intros s log.
  - exists []. cbn. rewrite app_nil_r, xorb_false_r.
    repeat split. intros [|k] r0 E; discriminate E.
  - cbn [timer_runs timer_cb]. unfold LOG.
    destruct (IH (negb s) (log ++ [timer_line s r])%list) as (lines & E & L & N).
    exists (timer_line s r :: lines). rewrite E. split; [|split].
    + cbn [List.length]. rewrite Nat.odd_succ, <- Nat.negb_odd.
      rewrite <- app_assoc. cbn [List.app].
      f_equal. destruct s; destruct (Nat.odd (List.length rest)); reflexivity.
    + cbn [List.length]. now rewrite L.
    + intros [|k] r0 Hk; cbn [nth_error] in *.
      * injection Hk as <-. cbn. now rewrite xorb_false_r.
      * rewrite (N k r0 Hk). rewrite Nat.odd_succ, <- Nat.negb_odd.
        do 2 f_equal. destruct s; destruct (Nat.odd k); reflexivity.
Qed.

(** X9: the timer alternates its label, starting with "Tock": from the
    initial [s_tick_tock = false], the line of the [k]-th firing (counted
    from 0) says "Tick" when [k] is odd and "Tock" when it is even, nothing
    else is logged, and the flag ends as the parity of the number of
    firings. *)
Theorem timer_cb_alternates (readings : list sys_reading) (log : console) :
  exists lines,
    timer_runs readings false log
    = (Nat.odd (List.length readings), (log ++ lines)%list)
    /\ List.length lines = List.length readings
    /\ forall k r, nth_error readings k = Some r ->
                   nth_error lines k
                   = Some ((if Nat.odd k then "Tick" else "Tock")
                             ++ " uptime: " ++ uptime_text r
                             ++ ", RAM: " ++ format_llu (heap_size r)
                             ++ ", " ++ format_llu (free_heap_size r) ++ " free").
Proof.
  destruct (timer_runs_alternates readings false log) as (lines & E & L & N).
  exists lines. cbn [xorb] in E, N. repeat split; assumption.
Qed.

(** ** Server state updates *)

(** X10: the two flags start as [false] and nothing in the file sets them,
    so over any sequence of state updates, whatever the server state and
    the library's answers, every update is handed to the application:
    no store is purged, no pairing removed, and no update ends in a fatal
    error. *)
Theorem state_updates_always_delegate (updates : list hap_answers) :
  state_updates updates initial_flags
  = Returned initial_flags
      (repeat Call_AccessoryServerHandleUpdatedState (List.length updates)).
Proof.
  induction updates as [|answers rest IH]; [reflexivity|].
  cbn [state_updates]. unfold HandleUpdatedState at 1.
  cbn [initial_flags requestedFactoryReset clearPairings].
  rewrite !andb_false_r. rewrite IH. reflexivity.
Qed.

(** X11: what a returning call does to the flags: [clearPairings] is never
    changed, and [requestedFactoryReset] is cleared exactly when the server
    is idle. So a factory reset is done once: the update after a completed
    reset purges nothing. *)
Theorem HandleUpdatedState_flags (answers : hap_answers) (fl fl' : reset_flags)
        (calls : list platform_call) :
  HandleUpdatedState answers fl = Returned fl' calls ->
  clearPairings fl' = clearPairings fl
  /\ requestedFactoryReset fl'
     = requestedFactoryReset fl && negb (server_is_idle answers)
  /\ (In (Call_HAPPlatformKeyValueStorePurgeDomain 0) calls ->
      forall answers',
        ~ In (Call_HAPPlatformKeyValueStorePurgeDomain 0)
             (calls_of (HandleUpdatedState answers' fl'))).
Proof.
  unfold HandleUpdatedState.
  destruct (server_is_idle answers) eqn:Ei;
    destruct (requestedFactoryReset fl) eqn:Er; cbn [andb negb].
  - destruct (purge_error answers =? 0); cbn [negb]; [|discriminate].
    destruct (restore_error answers =? 0); cbn [negb]; [|discriminate].
    intros E. injection E as <- <-.
    cbn [clearPairings requestedFactoryReset]. repeat split.
    intros _ answers'.
    cbn [requestedFactoryReset clearPairings]. rewrite andb_false_r.
    destruct (server_is_idle answers' && clearPairings fl);
      [destruct (remove_pairings_error answers' =? 0)|];
      cbn; intuition discriminate.
  - destruct (clearPairings fl) eqn:Ec;
      [destruct (remove_pairings_error answers =? 0); cbn [negb]; [|discriminate]|];
      intros E; injection E as <- <-; rewrite Er; repeat split; try assumption;
      cbn; intuition discriminate.
  - intros E. injection E as <- <-. rewrite Er. repeat split.
    cbn. intuition discriminate.
  - intros E. injection E as <- <-. rewrite Er. repeat split.
    cbn. intuition discriminate.
Qed.

Lemma HandleUpdatedState_flags_witness :
  clearPairings {| requestedFactoryReset := false; clearPairings := true |} = true
  /\ requestedFactoryReset {| requestedFactoryReset := false; clearPairings := true |}
     = true && negb true
  /\ (In (Call_HAPPlatformKeyValueStorePurgeDomain 0)
         [Call_HAPLogInfo "A factory reset has been requested.";
          Call_HAPPlatformKeyValueStorePurgeDomain 0;
          Call_HAPRestoreFactorySettings; Call_AppRelease;
          Call_AppCreate; Call_AppAccessoryServerStart] ->
      forall answers',
        ~ In (Call_HAPPlatformKeyValueStorePurgeDomain 0)
             (calls_of (HandleUpdatedState answers'
                          {| requestedFactoryReset := false; clearPairings := true |}))).
Proof.
  apply (HandleUpdatedState_flags
           {| server_is_idle := true; purge_error := 0;
              restore_error := 0; remove_pairings_error := 0 |}
           {| requestedFactoryReset := true; clearPairings := true |}).
  reflexivity.
Defined.

(** X12: [clearPairings] is not cleared by the branch it selects: once it
    is set (with no factory reset requested), every idle update removes
    all pairings and restarts the server again, update after update. *)
Theorem clearPairings_repeats (updates : list hap_answers) :
  Forall idle_without_error updates ->
  state_updates updates {| requestedFactoryReset := false; clearPairings := true |}
  = Returned {| requestedFactoryReset := false; clearPairings := true |}
      (List.concat (repeat [Call_HAPRemoveAllPairings; Call_AppAccessoryServerStart]
                      (List.length updates))).
Proof.
  induction 1 as [|answers rest [Hi He] _ IH]; [reflexivity|].
  cbn [state_updates]. unfold HandleUpdatedState at 1.
  cbn [requestedFactoryReset clearPairings].
  rewrite Hi, He. cbn [andb negb Z.eqb]. rewrite IH. reflexivity.
Qed.

Lemma clearPairings_repeats_witness :
  state_updates
    [{| server_is_idle := true; purge_error := 0;
        restore_error := 0; remove_pairings_error := 0 |};
     {| server_is_idle := true; purge_error := 5;
        restore_error := 0; remove_pairings_error := 0 |}]
    {| requestedFactoryReset := false; clearPairings := true |}
  = Returned {| requestedFactoryReset := false; clearPairings := true |}
      (List.concat (repeat [Call_HAPRemoveAllPairings; Call_AppAccessoryServerStart] 2)).
Proof.
  apply (clearPairings_repeats
           [{| server_is_idle := true; purge_error := 0;
               restore_error := 0; remove_pairings_error := 0 |};
            {| server_is_idle := true; purge_error := 5;
               restore_error := 0; remove_pairings_error := 0 |}]).
  repeat constructor.
Defined.

(** X13: the application is released (and created again) only in a
    factory reset whose purge and restore both succeeded; the store is
    purged only when the server is idle and a reset was requested; and when
    the server is not idle the update is handed to the application with the
    flags untouched, whatever they are. *)
Theorem HandleUpdatedState_guards (answers : hap_answers) (fl : reset_flags) :
  (In Call_AppRelease (calls_of (HandleUpdatedState answers fl))
   <-> server_is_idle answers = true /\ requestedFactoryReset fl = true
       /\ purge_error answers = 0 /\ restore_error answers = 0)
  /\ (In (Call_HAPPlatformKeyValueStorePurgeDomain 0)
         (calls_of (HandleUpdatedState answers fl))
      <-> server_is_idle answers = true /\ requestedFactoryReset fl = true)
  /\ (server_is_idle answers = false ->
      HandleUpdatedState answers fl
      = Returned fl [Call_AccessoryServerHandleUpdatedState]).
Proof.
  unfold HandleUpdatedState.
  destruct (server_is_idle answers); destruct (requestedFactoryReset fl);
    cbn [andb negb].
  - destruct (Z.eqb_spec (purge_error answers) 0) as [Ep|Ep]; cbn [negb];
      [destruct (Z.eqb_spec (restore_error answers) 0) as [Er|Er]; cbn [negb]|];
      cbn; intuition (try discriminate; try congruence).
  - destruct (clearPairings fl);
      [destruct (remove_pairings_error answers =? 0)|];
      cbn; intuition (try discriminate; try congruence).
  - cbn. intuition (try discriminate; try congruence).
  - cbn. intuition (try discriminate; try congruence).
Qed.

Lemma HandleUpdatedState_guards_witness :
  HandleUpdatedState
    {| server_is_idle := false; purge_error := 0;
       restore_error := 0; remove_pairings_error := 0 |}
    {| requestedFactoryReset := true; clearPairings := true |}
  = Returned {| requestedFactoryReset := true; clearPairings := true |}
      [Call_AccessoryServerHandleUpdatedState].
Proof.
  apply (proj2 (proj2 (HandleUpdatedState_guards
           {| server_is_idle := false; purge_error := 0;
              restore_error := 0; remove_pairings_error := 0 |}
           {| requestedFactoryReset := true; clearPairings := true |}))).
  reflexivity.
Defined.

(** ** The setup display *)

(** A string that fits the buffer with its terminator reads back as it
    was. *)
Lemma HAPRawBufferCopyBytes_c_str (n : nat) :
  forall src, (strlen src < n)%nat -> c_str (HAPRawBufferCopyBytes src n) = c_str src.
Proof.
  unfold c_str. induction n as [|n IH]; intros src Hn; [lia|].
  cbn [HAPRawBufferCopyBytes]. destruct src as [|c t].
  - reflexivity.
  - cbn [deref ptr_add strlen] in *.
    destruct (Ascii.eqb c NUL) eqn:E; [reflexivity|].
    cbn [substring]. rewrite IH by lia. reflexivity.
Qed.

Lemma HAPRawBufferCopyBytes_length (n : nat) :
  forall src, String.length (HAPRawBufferCopyBytes src n) = n.
Proof.
  induction n as [|n IH]; intros src; [reflexivity|].
  cbn [HAPRawBufferCopyBytes String.length]. now rewrite IH.
Qed.

Lemma zeros_length (n : nat) : String.length (zeros n) = n.
Proof.
  induction n as [|n IH]; [reflexivity | cbn; now rewrite IH].
Qed.

Lemma zeros_c_str (n : nat) : c_str (zeros n) = EmptyString.
Proof. destruct n; reflexivity. Qed.

(** X14: the update event overwrites the whole display. Both buffers keep
    their size; a code or payload that fits its buffer with the terminator
    reads back unchanged and is marked set; a null one leaves a zeroed
    buffer marked unset. Nothing of the display before the event
    survives. *)
Theorem UpdateSetupPayloadEventHandler_stores (sizeof_setupCode sizeof_setupPayload : nat)
        (arg : update_setup_payload_arg)
        (before : HAPPlatformAccessorySetupDisplay) (log : console) :
  let after :=
    fst (UpdateSetupPayloadEventHandler sizeof_setupCode sizeof_setupPayload
           arg before log) in
  String.length (setupCode after) = sizeof_setupCode
  /\ String.length (setupPayload after) = sizeof_setupPayload
  /\ (forall c, arg_setupCode arg = Some c -> (strlen c < sizeof_setupCode)%nat ->
        setupCodeIsSet after = true /\ c_str (setupCode after) = c_str c)
  /\ (forall p, arg_setupPayload arg = Some p -> (strlen p < sizeof_setupPayload)%nat ->
        setupPayloadIsSet after = true /\ c_str (setupPayload after) = c_str p)
  /\ (arg_setupCode arg = None ->
        setupCodeIsSet after = false /\ c_str (setupCode after) = EmptyString)
  /\ (arg_setupPayload arg = None ->
        setupPayloadIsSet after = false /\ c_str (setupPayload after) = EmptyString)
  /\ forall other log',
       fst (UpdateSetupPayloadEventHandler sizeof_setupCode sizeof_setupPayload
              arg other log') = after.
Proof.
  cbv zeta. unfold UpdateSetupPayloadEventHandler, HAPRawBufferZero.
  destruct (arg_setupCode arg) as [c|]; destruct (arg_setupPayload arg) as [p|];
    cbn [fst setupCode setupPayload setupCodeIsSet setupPayloadIsSet];
    rewrite ?HAPRawBufferCopyBytes_length, ?zeros_length, ?zeros_c_str;
    (split; [reflexivity|]); (split; [reflexivity|]);
    (split; [intros x E Hx;
             first [discriminate E
                   | injection E as <-;
                     split; [reflexivity | now apply HAPRawBufferCopyBytes_c_str]]|]);
    (split; [intros x E Hx;
             first [discriminate E
                   | injection E as <-;
                     split; [reflexivity | now apply HAPRawBufferCopyBytes_c_str]]|]);
    (split; [intros E; first [discriminate E | split; reflexivity]|]);
    (split; [intros E; first [discriminate E | split; reflexivity]|]);
    intros; reflexivity.
Qed.

(** ** The HTTP endpoint *)

Section HttpProperties.

Context {float : Type} `{FloatOps float}.
Variable sgn : bool.
Variable qrcode_initText : Z -> Z -> string -> QRCode.
Variable MG_EV_HTTP_REQUEST : Z.
Variable MG_F_SEND_AND_CLOSE : Z.
Variable response_line : Z -> string -> string.

(** The badge only ever appends to the connection. *)
Lemma SVGBadge_appends (p : string) (connection connection' : mg_connection)
      (log log' : console) :
  SVGBadgeFromSetupPayload sgn qrcode_initText p connection log
  = Some (connection', log') ->
  exists text, connection' = connection ++ text.
Proof.
  intros E. destruct (is_setup_payload p) eqn:Ev.
  - destruct (codeFromSetupPayload sgn p) as [code|] eqn:Ec.
    + destruct (Z.le_gt_cases code 99999999) as [Hle|Hgt].
      * rewrite (SVGBadge_renders sgn qrcode_initText p connection log code
                   Ev Ec Hle) in E.
        injection E as <- _. eexists. reflexivity.
      * rewrite (SVGBadge_over_range sgn qrcode_initText p connection log code
                   Ev Ec Hgt) in E.
        injection E as <- _. exists EmptyString. now rewrite append_empty_r.
    + rewrite (SVGBadge_undefined sgn qrcode_initText p connection log Ev Ec) in E.
      discriminate E.
  - rewrite (SVGBadge_ignores sgn qrcode_initText p connection log Ev) in E.
    injection E as <- _. exists EmptyString. now rewrite append_empty_r.
Qed.

(** X15: an event other than an HTTP request leaves the connection and the
    console as they were. An HTTP request always gets the status line 200
    appended to what was queued, then a body, and the connection is marked
    to be closed after sending: the flag is set and no other flag
    changes. *)
Theorem HttpSetupHandler_replies_and_closes
        (setupDisplay : HAPPlatformAccessorySetupDisplay)
        (c c' : http_connection) (ev : Z) (log log' : console) :
  HttpSetupHandler sgn qrcode_initText MG_EV_HTTP_REQUEST MG_F_SEND_AND_CLOSE
      response_line setupDisplay c ev log
  = Some (c', log') ->
  (ev <> MG_EV_HTTP_REQUEST -> c' = c /\ log' = log)
  /\ (ev = MG_EV_HTTP_REQUEST ->
      Z.land (flags c') MG_F_SEND_AND_CLOSE = MG_F_SEND_AND_CLOSE
      /\ (forall n, Z.testbit MG_F_SEND_AND_CLOSE n = false ->
                    Z.testbit (flags c') n = Z.testbit (flags c) n)
      /\ exists content_type body,
           send_mbuf c'
           = send_mbuf c
               ++ response_line 200 ("Content-Type: " ++ content_type ++ CRLF)
               ++ body).
Proof.
  unfold HttpSetupHandler. intros E.
  destruct (Z.eqb_spec ev MG_EV_HTTP_REQUEST) as [Hev|Hev]; cbn [negb] in E.
  - split; [intros Hne; contradiction|]. intros _.
    assert (Hsent : exists content_type body out,
              E = E /\ flags c' = Z.lor (flags c) MG_F_SEND_AND_CLOSE
              /\ send_mbuf c' = out
              /\ out = send_mbuf c
                         ++ response_line 200 ("Content-Type: " ++ content_type ++ CRLF)
                         ++ body).
    { destruct (setupPayloadIsSet setupDisplay).
      - destruct (SVGBadgeFromSetupPayload sgn qrcode_initText
                    (setupPayload setupDisplay) _ log) as [[out l]|] eqn:Eb;
          [|discriminate E].
        destruct (SVGBadge_appends _ _ _ _ _ Eb) as [text ->].
        injection E as <- <-.
        exists "image/svg+xml", text. eexists.
        repeat split. unfold mg_send_response_line, mg_printf.
        cbn [send_mbuf]. rewrite append_assoc. reflexivity.
      - injection E as <- <-.
        exists "text/text", ("No setup payload is set. Already paired?" ++ CRLF).
        eexists. repeat split. unfold mg_send_response_line, mg_printf.
        cbn [send_mbuf]. rewrite append_assoc. reflexivity. }
    destruct Hsent as (ct & body & out & _ & Hf & Hs & Ho).
    split; [|split].
    + rewrite Hf. apply Z.bits_inj'. intros n Hn.
      rewrite Z.land_spec, Z.lor_spec.
      destruct (Z.testbit (flags c) n); destruct (Z.testbit MG_F_SEND_AND_CLOSE n);
        reflexivity.
    + intros n Hn. rewrite Hf, Z.lor_spec, Hn. apply orb_false_r.
    + exists ct, body. rewrite Hs. exact Ho.
  - injection E as <- <-. split; [intros _; split; reflexivity|].
    intros Hx. contradiction.
Qed.

(** X16: when a payload is set but is not well-formed, or its code is above
    99999999, a request still gets the status line announcing an SVG image,
    and nothing after it: the reply has an empty body (and the connection
    is closed). *)
Theorem HttpSetupHandler_empty_body
        (setupDisplay : HAPPlatformAccessorySetupDisplay)
        (c : http_connection) (log : console) :
  setupPayloadIsSet setupDisplay = true ->
  (is_setup_payload (setupPayload setupDisplay) = false
   \/ exists code,
        codeFromSetupPayload sgn (setupPayload setupDisplay) = Some code
        /\ 99999999 < code) ->
  exists log',
    HttpSetupHandler sgn qrcode_initText MG_EV_HTTP_REQUEST MG_F_SEND_AND_CLOSE
      response_line
      setupDisplay c MG_EV_HTTP_REQUEST log
    = Some ({| send_mbuf :=
                 send_mbuf c
                   ++ response_line 200 ("Content-Type: image/svg+xml" ++ CRLF);
               flags := Z.lor (flags c) MG_F_SEND_AND_CLOSE |}, log').
Proof.
  intros Hset Hbad. unfold HttpSetupHandler.
  rewrite Z.eqb_refl, Hset. cbn [negb].
  unfold mg_send_response_line, mg_printf.
  destruct (is_setup_payload (setupPayload setupDisplay)) eqn:Ev.
  - destruct Hbad as [Hx|(code & Hc & Hgt)]; [discriminate Hx|].
    rewrite (SVGBadge_over_range sgn qrcode_initText _ _ log code Ev Hc Hgt).
    eexists. reflexivity.
  - rewrite (SVGBadge_ignores sgn qrcode_initText _ _ log Ev).
    eexists. reflexivity.
Qed.

(** X17: after an update event that carries a well-formed payload with its
    code in range (and the buffer has room for its terminator), a request
    is answered with the SVG status line followed by the badge of that
    payload, and the connection is closed, whatever the display held
    before the event. *)
Theorem request_after_update_serves_badge
        (sizeof_setupCode sizeof_setupPayload : nat)
        (arg : update_setup_payload_arg) (payload : string) (code : Z)
        (before : HAPPlatformAccessorySetupDisplay) (log0 : console)
        (c : http_connection) (log : console) :
  arg_setupPayload arg = Some payload ->
  (20 < sizeof_setupPayload)%nat ->
  well_formed_payload payload ->
  codeFromSetupPayload sgn payload = Some code ->
  code <= 99999999 ->
  let setupDisplay :=
    fst (UpdateSetupPayloadEventHandler sizeof_setupCode sizeof_setupPayload
           arg before log0) in
  c_str (setupPayload setupDisplay) = c_str payload
  /\ HttpSetupHandler sgn qrcode_initText MG_EV_HTTP_REQUEST MG_F_SEND_AND_CLOSE
      response_line
       setupDisplay c MG_EV_HTTP_REQUEST log
     = Some ({| send_mbuf :=
                  send_mbuf c
                    ++ response_line 200 ("Content-Type: image/svg+xml" ++ CRLF)
                    ++ badge_text (qrcode_initText 3 2 (setupPayload setupDisplay))
                         (substring 0 4 (format_llu code))
                         (substring 4 4 (format_llu code));
                flags := Z.lor (flags c) MG_F_SEND_AND_CLOSE |}, log).
Proof.
  intros Harg Hsize Hwf Hcode Hle setupDisplay.
  assert (Hp : setupPayload setupDisplay
               = HAPRawBufferCopyBytes payload sizeof_setupPayload
               /\ setupPayloadIsSet setupDisplay = true).
  { subst setupDisplay. unfold UpdateSetupPayloadEventHandler. rewrite Harg.
    destruct (arg_setupCode arg); split; reflexivity. }
  destruct Hp as [Hp Hset].
  assert (Hstr : c_str (setupPayload setupDisplay) = c_str payload).
  { rewrite Hp. apply HAPRawBufferCopyBytes_c_str. destruct Hwf as [-> _]. lia. }
  split; [exact Hstr|].
  destruct (decoder_c_str sgn (setupPayload setupDisplay)) as [Ev Ec].
  destruct (decoder_c_str sgn payload) as [Ev' Ec'].
  rewrite Hstr in Ev, Ec. rewrite Ev' in Ev. rewrite Ec' in Ec.
  apply well_formed_is_setup_payload in Hwf.
  rewrite Hwf in Ev. rewrite Hcode in Ec. symmetry in Ev, Ec.
  unfold HttpSetupHandler.
  rewrite Z.eqb_refl, Hset. cbn [negb].
  unfold mg_send_response_line, mg_printf.
  rewrite (SVGBadge_renders sgn qrcode_initText _ _ log code Ev Ec Hle).
  rewrite append_assoc. reflexivity.
Qed.

(** X18: after an update event without a payload, a request is answered
    with the plain-text notice, whatever payload the display held before
    and whether or not the event carried a setup code. *)
Theorem request_after_invalidation_says_unset
        (sizeof_setupCode sizeof_setupPayload : nat)
        (arg : update_setup_payload_arg)
        (before : HAPPlatformAccessorySetupDisplay) (log0 : console)
        (c : http_connection) (log : console) :
  arg_setupPayload arg = None ->
  HttpSetupHandler sgn qrcode_initText MG_EV_HTTP_REQUEST MG_F_SEND_AND_CLOSE
      response_line
    (fst (UpdateSetupPayloadEventHandler sizeof_setupCode sizeof_setupPayload
            arg before log0))
    c MG_EV_HTTP_REQUEST log
  = Some ({| send_mbuf :=
               send_mbuf c
                 ++ response_line 200 ("Content-Type: text/text" ++ CRLF)
                 ++ "No setup payload is set. Already paired?" ++ CRLF;
             flags := Z.lor (flags c) MG_F_SEND_AND_CLOSE |}, log).
Proof.
  intros Harg. unfold HttpSetupHandler, UpdateSetupPayloadEventHandler.
  rewrite Harg, Z.eqb_refl.
  destruct (arg_setupCode arg); cbn [fst setupPayloadIsSet negb];
    unfold mg_send_response_line, mg_printf; rewrite append_assoc; reflexivity.
Qed.

End HttpProperties.

Lemma HttpSetupHandler_replies_and_closes_witness :
  let setupDisplay :=
    {| setupPayload := zeros 21; setupCode := zeros 11;
       setupPayloadIsSet := false; setupCodeIsSet := false |} in
  let c := {| send_mbuf := "queued"; flags := 5 |} in
  let c' :=
    {| send_mbuf :=
         "queued" ++ sample_response_line 200 ("Content-Type: text/text" ++ CRLF)
           ++ "No setup payload is set. Already paired?" ++ CRLF;
       flags := 1029 |} in
  (100 <> sample_MG_EV_HTTP_REQUEST -> c' = c /\ @nil string = [])
  /\ (100 = sample_MG_EV_HTTP_REQUEST ->
      Z.land (flags c') sample_MG_F_SEND_AND_CLOSE = sample_MG_F_SEND_AND_CLOSE
      /\ (forall n, Z.testbit sample_MG_F_SEND_AND_CLOSE n = false ->
                    Z.testbit (flags c') n = Z.testbit (flags c) n)
      /\ exists content_type body,
           send_mbuf c'
           = send_mbuf c
               ++ sample_response_line 200 ("Content-Type: " ++ content_type ++ CRLF)
               ++ body).
Proof.
  intros setupDisplay c c'.
  apply (HttpSetupHandler_replies_and_closes (float := Binary32.float) false
           sample_initText sample_MG_EV_HTTP_REQUEST sample_MG_F_SEND_AND_CLOSE
           sample_response_line setupDisplay c c' 100 [] []).
  vm_compute. reflexivity.
Defined.

Lemma HttpSetupHandler_empty_body_witness :
  let setupDisplay :=
    {| setupPayload := HAPRawBufferCopyBytes "X-HM://0001NJCHSABCD" 21;
       setupCode := zeros 11;
       setupPayloadIsSet := true; setupCodeIsSet := false |} in
  let c := {| send_mbuf := "queued"; flags := 5 |} in
  exists log',
    HttpSetupHandler false sample_initText sample_MG_EV_HTTP_REQUEST
      sample_MG_F_SEND_AND_CLOSE sample_response_line
      setupDisplay c sample_MG_EV_HTTP_REQUEST []
    = Some ({| send_mbuf :=
                 send_mbuf c
                   ++ sample_response_line 200 ("Content-Type: image/svg+xml" ++ CRLF);
               flags := Z.lor (flags c) sample_MG_F_SEND_AND_CLOSE |}, log').
Proof.
  intros setupDisplay c.
  apply (HttpSetupHandler_empty_body (float := Binary32.float) false
           sample_initText sample_MG_EV_HTTP_REQUEST sample_MG_F_SEND_AND_CLOSE
           sample_response_line setupDisplay c []).
  - reflexivity.
  - right. exists 100000000. split; [vm_compute; reflexivity | lia].
Defined.

Lemma request_after_update_serves_badge_witness :
  let arg := {| arg_setupPayload := Some "X-HM://00520LWL5ABCD";
                arg_setupCode := Some "000-12-345" |} in
  let before :=
    {| setupPayload := zeros 21; setupCode := zeros 11;
       setupPayloadIsSet := false; setupCodeIsSet := false |} in
  let c := {| send_mbuf := "queued"; flags := 5 |} in
  let setupDisplay := fst (UpdateSetupPayloadEventHandler 11 21 arg before []) in
  c_str (setupPayload setupDisplay) = c_str "X-HM://00520LWL5ABCD"
  /\ HttpSetupHandler false sample_initText sample_MG_EV_HTTP_REQUEST
       sample_MG_F_SEND_AND_CLOSE sample_response_line
       setupDisplay c sample_MG_EV_HTTP_REQUEST []
     = Some ({| send_mbuf :=
                  send_mbuf c
                    ++ sample_response_line 200 ("Content-Type: image/svg+xml" ++ CRLF)
                    ++ badge_text (sample_initText 3 2 (setupPayload setupDisplay))
                         (substring 0 4 (format_llu 12345))
                         (substring 4 4 (format_llu 12345));
                flags := Z.lor (flags c) sample_MG_F_SEND_AND_CLOSE |}, []).
Proof.
  intros arg before c.
  apply (request_after_update_serves_badge (float := Binary32.float) false
           sample_initText sample_MG_EV_HTTP_REQUEST sample_MG_F_SEND_AND_CLOSE
           sample_response_line 11 21 arg "X-HM://00520LWL5ABCD" 12345 before [] c []).
  - reflexivity.
  - lia.
  - split; reflexivity.
  - vm_compute. reflexivity.
  - lia.
Defined.

Lemma request_after_invalidation_says_unset_witness :
  let arg := {| arg_setupPayload := None; arg_setupCode := None |} in
  let before :=
    {| setupPayload := HAPRawBufferCopyBytes "X-HM://00520LWL5ABCD" 21;
       setupCode := HAPRawBufferCopyBytes "000-12-345" 11;
       setupPayloadIsSet := true; setupCodeIsSet := true |} in
  let c := {| send_mbuf := "queued"; flags := 5 |} in
  HttpSetupHandler (float := Binary32.float) false sample_initText
    sample_MG_EV_HTTP_REQUEST sample_MG_F_SEND_AND_CLOSE sample_response_line
    (fst (UpdateSetupPayloadEventHandler 11 21 arg before []))
    c sample_MG_EV_HTTP_REQUEST []
  = Some ({| send_mbuf :=
               send_mbuf c
                 ++ sample_response_line 200 ("Content-Type: text/text" ++ CRLF)
                 ++ "No setup payload is set. Already paired?" ++ CRLF;
             flags := Z.lor (flags c) sample_MG_F_SEND_AND_CLOSE |}, []).
Proof.
  intros arg before c.
  apply (request_after_invalidation_says_unset (float := Binary32.float) false
           sample_initText sample_MG_EV_HTTP_REQUEST sample_MG_F_SEND_AND_CLOSE
           sample_response_line 11 21 arg before [] c []).
  reflexivity.
Defined.
